(** * Text2Map: the entity-to-location pipeline of [GeocodeTweetProcessor]

    A shallow embedding of [src/text2map/core/geocoder.py]: span extraction,
    entity aggregation, geocoding, the spatial join and the state-polygon
    substitution, with the pandas / geopandas operations the code calls
    written out as list functions.

    Strings are Stdlib [string]s, their 8-bit characters read as the code
    points U+0000..U+00FF: the model covers the Python strings made of
    these.  Python compares strings code point by code point, which for
    such strings is [String.compare]; [str.lower()] and [str.strip()]
    are written out for all 256 characters. *)

From Stdlib Require Import String Ascii List ZArith NArith Lia Bool.
From Stdlib Require Import Permutation Sorted.
Import ListNotations.

Set Implicit Arguments.

Local Open Scope string_scope.
Local Open Scope list_scope.

(* ================================================================= *)
(** ** Python exceptions and the two effect layers *)

Inductive pyexn : Type :=
| TypeError
| ValueError
| DataSourceError
| GeocoderTimedOut
| GeocoderServiceError.

Definition pyexn_eq_dec (a b : pyexn) : {a = b} + {a <> b}.
Proof. decide equality. Defined.

Inductive result (A : Type) : Type :=
| Ok (a : A)
| Raise (e : pyexn).

Arguments Ok {A} a.
Arguments Raise {A} e.

(** Computations that may raise: the pure ones ([result]) and, further
    down, the ones that also talk to the geocoding service and the file
    system. *)
Class Monad (M : Type -> Type) : Type := {
  ret : forall A, A -> M A;
  bind : forall A B, M A -> (A -> M B) -> M B;
  raise : forall A, pyexn -> M A
}.

Arguments ret {M _ A} _.
Arguments bind {M _ A B} _ _.
Arguments raise {M _ A} _.

Notation "x <- c ;; k" := (bind c (fun x => k))
  (at level 61, c at next level, right associativity).
Notation "' p <- c ;; k" := (bind c (fun x => match x with p => k end))
  (at level 61, p pattern, c at next level, right associativity).

#[export] Instance result_Monad : Monad result := {
  ret := fun A a => Ok a;
  bind := fun A B c k => match c with Ok a => k a | Raise e => Raise e end;
  raise := fun A e => Raise e
}.

(* ================================================================= *)
(** ** Python [str] operations used by the source *)

(** [s[start:stop]] for integer or [None] bounds: a negative bound counts
    from the end, and every bound is then clamped into [0, len(s)]
    (CPython's [PySlice_AdjustIndices] with step 1). *)
Definition adjust_index (n i : Z) : Z :=
  if (i <? 0)%Z then Z.max (i + n) 0 else Z.min i n.

Definition slice (s : string) (start stop : option Z) : string :=
  let n := Z.of_nat (String.length s) in
  let lo := match start with Some i => adjust_index n i | None => 0%Z end in
  let hi := match stop with Some i => adjust_index n i | None => n end in
  substring (Z.to_nat lo) (Z.to_nat (hi - lo)) s.

(** [sep.join(parts)] *)
Fixpoint join (sep : string) (parts : list string) : string :=
  match parts with
  | [] => ""
  | [p] => p
  | p :: rest => p ++ sep ++ join sep rest
  end.

(** [s.replace(c, '')] for a one-character [c]. *)
Fixpoint remove_char (c : ascii) (s : string) : string :=
  match s with
  | EmptyString => EmptyString
  | String x s' =>
      if Ascii.eqb x c then remove_char c s' else String x (remove_char c s')
  end.

(** [s.lstrip(chars)], [s.rstrip(chars)], [s.strip(chars)], the character
    set given as a predicate. *)
Fixpoint lstrip (p : ascii -> bool) (s : string) : string :=
  match s with
  | EmptyString => EmptyString
  | String x s' => if p x then lstrip p s' else s
  end.

Fixpoint rstrip (p : ascii -> bool) (s : string) : string :=
  match s with
  | EmptyString => EmptyString
  | String x s' =>
      match rstrip p s' with
      | EmptyString => if p x then EmptyString else String x EmptyString
      | r => String x r
      end
  end.

Definition strip (p : ascii -> bool) (s : string) : string :=
  rstrip p (lstrip p s).

Definition in_chars (chars : string) (x : ascii) : bool :=
  existsb (Ascii.eqb x) (list_ascii_of_string chars).

(** The characters [str.strip()] removes by default, among the code
    points below 256: TAB..CR, FS..US, the space, U+0085 (next line) and
    U+00A0 (no-break space). *)
Definition is_space (x : ascii) : bool :=
  let n := N_of_ascii x in
  ((9 <=? n) && (n <=? 13) || (28 <=? n) && (n <=? 32)
   || (n =? 133) || (n =? 160))%N.

(** [s.lower()] on one character: the letters A..Z, and the upper-case
    letters U+00C0..U+00DE (U+00D7, the multiplication sign, is none),
    move up by 32. *)
Definition lower_char (x : ascii) : ascii :=
  let n := N_of_ascii x in
  if ((65 <=? n) && (n <=? 90)
      || (192 <=? n) && (n <=? 222) && negb (n =? 215))%N
  then ascii_of_N (n + 32) else x.

Fixpoint lower (s : string) : string :=
  match s with
  | EmptyString => EmptyString
  | String x s' => String (lower_char x) (lower s')
  end.

(** [sorted(xs)]: a stable ascending sort. *)
Fixpoint insert_sorted (A : Type) (leb : A -> A -> bool) (x : A) (l : list A)
  : list A :=
  match l with
  | [] => [x]
  | y :: t => if leb x y then x :: l else y :: insert_sorted leb x t
  end.

Fixpoint sorted (A : Type) (leb : A -> A -> bool) (l : list A) : list A :=
  match l with
  | [] => []
  | x :: t => insert_sorted leb x (sorted leb t)
  end.

(** [list(set(xs))]: the distinct elements.  Python fixes no order for a
    set; every use below sorts the result. *)
Definition py_set (xs : list string) : list string := nodup string_dec xs.

(** [xs[:n]] on a sequence of rows. *)
Definition take_rows (A : Type) (n : Z) (l : list A) : list A :=
  firstn (Z.to_nat (adjust_index (Z.of_nat (List.length l)) n)) l.

(* ================================================================= *)
(** ** Values read from the JSONL input *)

#[local] Unset Elimination Schemes.

Inductive pyval : Type :=
| PInt (z : Z)
| PBool (b : bool)
| PNone
| PFloat
| PStr (s : string)
| PList (items : list pyval).

#[local] Set Elimination Schemes.

(** [a, b, c = v]: [v] must be iterable with exactly three items. *)
Definition unpack3 (v : pyval) : result (pyval * pyval * pyval) :=
  match v with
  | PList [a; b; c] => Ok (a, b, c)
  | PList _ => Raise ValueError
  | PStr s =>
      match list_ascii_of_string s with
      | [a; b; c] =>
          Ok (PStr (String a ""), PStr (String b ""), PStr (String c ""))
      | _ => Raise ValueError
      end
  | _ => Raise TypeError
  end.

(** A slice bound must be an integer ([bool] is one) or [None]. *)
Definition slice_bound (v : pyval) : result (option Z) :=
  match v with
  | PInt z => Ok (Some z)
  | PBool b => Ok (Some (if b then 1 else 0)%Z)
  | PNone => Ok None
  | _ => Raise TypeError
  end.

Definition getitem_slice (s : string) (start stop : pyval) : result string :=
  lo <- slice_bound start ;;
  hi <- slice_bound stop ;;
  ret (slice s lo hi).

(** [v == "..."] against a string literal. *)
Definition eq_str (v : pyval) (lit : string) : bool :=
  match v with
  | PStr s => String.eqb s lit
  | _ => false
  end.

(* ================================================================= *)
(** ** [extract_entities_by_type] *)

Record ner_row : Type := {
  text : string;
  label : list pyval
}.

(** A frame row with the three entity columns, or the dict with the keys
    ["FAC"], ["LOC"], ["GPE"]. *)
Record cols (A : Type) : Type := {
  FAC : A;
  LOC : A;
  GPE : A
}.

Definition extracted : Type := cols (list string).

(** The [for start, end, entity_type in row['label']] loop, the three
    lists threaded as accumulators. *)
Fixpoint extract_loop (txt : string) (spans : list pyval)
    (fac loc gpe : list string) : result extracted :=
  match spans with
  | [] => Ok {| FAC := fac; LOC := loc; GPE := gpe |}
  | item :: rest =>
      '(start, end_, entity_type) <- unpack3 item ;;
      entity_text <- getitem_slice txt start end_ ;;
      if eq_str entity_type "FAC" then
        extract_loop txt rest (fac ++ [entity_text]) loc gpe
      else if eq_str entity_type "LOC" then
        extract_loop txt rest fac (loc ++ [entity_text]) gpe
      else if eq_str entity_type "GPE" then
        extract_loop txt rest fac loc (gpe ++ [entity_text])
      else
        extract_loop txt rest fac loc gpe
  end.

Definition extract_entities_by_type (row : ner_row) : result extracted :=
  extract_loop (text row) (label row) [] [] [].

(* ================================================================= *)
(** ** [process_entities] *)

(** What [apply] makes of an empty frame.  pandas calls the function
    once, on a row of NaN: when the call raises (the exception is
    swallowed) or returns a Series, [apply] returns a copy of the frame
    ([Kept]); when it returns a scalar, [apply] returns an empty Series
    ([Reduced]). *)
Inductive probed : Type :=
| Kept
| Reduced.

(** [df[...] = df.apply(f, axis=1)], with [probe] the call of [f] on the
    row of NaN.  The assignment to the new column(s) rejects the copy of
    an empty frame, whose columns are not the new ones, and takes the
    empty Series. *)
Fixpoint map_rows {M : Type -> Type} {MM : Monad M} {A B : Type}
    (f : A -> M B) (rows : list A) : M (list B) :=
  match rows with
  | [] => ret []
  | r :: rest =>
      b <- f r ;;
      bs <- map_rows f rest ;;
      ret (b :: bs)
  end.

Definition apply_rows {M : Type -> Type} {MM : Monad M} {A B : Type}
    (f : A -> M B) (probe : M probed) (rows : list A) : M (list B) :=
  match rows with
  | [] =>
      p <- probe ;;
      match p with
      | Kept => raise ValueError
      | Reduced => ret []
      end
  | _ => map_rows f rows
  end.

Definition map_cols (A B : Type) (f : A -> B) (row : cols A) : cols B :=
  {| FAC := f (FAC row); LOC := f (LOC row); GPE := f (GPE row) |}.

(** [entity not in row['LOC']] *)
Definition not_in (entity : string) (xs : list string) : bool :=
  negb (existsb (String.eqb entity) xs).

Definition remove_fac_loc_duplicates (row : cols (list string))
  : cols (list string) :=
  {| FAC := filter (fun entity => not_in entity (LOC row)) (FAC row);
     LOC := LOC row;
     GPE := GPE row |}.

(** [', '.join(sorted(x))] *)
Definition join_sorted (x : list string) : string :=
  join ", " (sorted String.leb x).

Definition remove_hash (value : string) : string := remove_char "#" value.

(** The key of a record: lines 65-88 applied to its extracted entities. *)
Definition canonical_key (e : extracted) : cols string :=
  let sets := map_cols py_set e in
  let sets := remove_fac_loc_duplicates sets in
  let joined := map_cols join_sorted sets in
  map_cols remove_hash joined.

(** The order of the group keys: the triples compared column by column. *)
Definition key_leb (a b : cols string) : bool :=
  match String.compare (FAC a) (FAC b) with
  | Lt => true
  | Gt => false
  | Eq =>
      match String.compare (LOC a) (LOC b) with
      | Lt => true
      | Gt => false
      | Eq => String.leb (GPE a) (GPE b)
      end
  end.

Definition key_eq_dec (a b : cols string) : {a = b} + {a <> b}.
Proof. repeat decide equality. Defined.

Record group_row : Type := {
  key : cols string;
  count : nat
}.

(** [df.groupby(["FAC", "LOC", "GPE"]).size().reset_index(name='count')]:
    one row per distinct key, in ascending key order, with the number of
    rows that carry the key. *)
Definition groupby_size (keys : list (cols string)) : list group_row :=
  map (fun k => {| key := k; count := count_occ key_eq_dec keys k |})
      (sorted key_leb (nodup key_eq_dec keys)).

(** [df_cleaned[col].str.strip(" ,")] for the three columns. *)
Definition strip_row (g : group_row) : group_row :=
  {| key := map_cols (strip (in_chars " ,")) (key g); count := count g |}.

(** [df_cleaned.iloc[1:]] *)
Definition iloc_from_1 (A : Type) (rows : list A) : list A := tl rows.

(** [df_cleaned[:max_rows] if max_rows else df_cleaned] *)
Definition truncate (A : Type) (max_rows : option Z) (rows : list A)
  : list A :=
  match max_rows with
  | None => rows
  | Some n => if (n =? 0)%Z then rows else take_rows n rows
  end.

(** Lines 90-93: the groups with their trimmed keys, before the first one
    is dropped. *)
Definition df_cleaned (keys : list (cols string)) : list group_row :=
  map strip_row (groupby_size keys).

Definition process_keys (keys : list (cols string)) (max_rows : option Z)
  : list group_row :=
  truncate max_rows (iloc_from_1 (df_cleaned keys)).

(** On the row of NaN [row['label']] is a float, which the loop of
    [extract_entities_by_type] cannot iterate: the call raises
    [TypeError]. *)
Definition probe_extract : result probed := ret Kept.

Definition process_entities (ner_entities : list ner_row)
    (max_rows : option Z) : result (list group_row) :=
  extracted_entities <-
    apply_rows extract_entities_by_type probe_extract ner_entities ;;
  ret (process_keys (map canonical_key extracted_entities) max_rows).

Definition default_max_rows : option Z := Some 300%Z.

(* ================================================================= *)
(** ** The processor and its collaborators *)

Definition us_states : list string :=
  [ "Alabama"; "Alaska"; "Arizona"; "Arkansas"; "California"; "Colorado";
    "Connecticut"; "Delaware"; "Florida"; "Georgia"; "Hawaii"; "Idaho";
    "Illinois"; "Indiana"; "Iowa"; "Kansas"; "Kentucky"; "Louisiana";
    "Maine"; "Maryland"; "Massachusetts"; "Michigan"; "Minnesota";
    "Mississippi"; "Missouri"; "Montana"; "Nebraska"; "Nevada";
    "New Hampshire"; "New Jersey"; "New Mexico"; "New York";
    "North Carolina"; "North Dakota"; "Ohio"; "Oklahoma"; "Oregon";
    "Pennsylvania"; "Rhode Island"; "South Carolina"; "South Dakota";
    "Tennessee"; "Texas"; "Utah"; "Vermont"; "Virginia"; "Washington";
    "West Virginia"; "Wisconsin"; "Wyoming" ].

Definition us_states_lower : list string := map lower us_states.

(** [gpe_lower in self.us_states_lower], after [lower()] and [strip()];
    a GPE cell is always a string, so [pd.isna] is false. *)
Definition contains_us_state_exact (gpe_value : string) : bool :=
  let gpe_lower := strip is_space (lower gpe_value) in
  existsb (String.eqb gpe_lower) us_states_lower.

Inductive event : Type :=
| Geocode (address : string) (timeout : Z)
| ReadFile (path : string).

Section Pipeline.

(** Finite float values and shapely polygons are opaque to the code. *)
Variable coord : Type.
Variable polygon : Type.

(** [Point(x, y).within(poly)], and [to_crs] between two reference
    systems. *)
Variable within : coord -> coord -> polygon -> bool.
Variable to_crs : string -> string -> polygon -> polygon.

(** The geocoding service behind [Nominatim.geocode]: one lookup returns
    a location, [None], or raises, and may change the service. *)
Variable service : Type.
Variable service_geocode :
  service -> string -> Z -> result (option (coord * coord)) * service.

(** A float cell: [NaN] when the value is missing. *)
Inductive pyfloat : Type :=
| NaN
| Float (v : coord).

Inductive geom : Type :=
| Point (x y : pyfloat)
| Polygon (p : polygon).

Record boundary_row : Type := {
  name : string;
  boundary : polygon
}.

Record shapefile : Type := {
  crs : string;
  features : list boundary_row
}.

Record world : Type := {
  geolocator : service;
  files : string -> option shapefile;
  trace : list event
}.

Definition M (A : Type) : Type := world -> result A * world.

#[export] Instance M_Monad : Monad M := {
  ret := fun A a w => (Ok a, w);
  bind := fun A B c k w =>
    match c w with
    | (Ok a, w') => k a w'
    | (Raise e, w') => (Raise e, w')
    end;
  raise := fun A e w => (Raise e, w)
}.

Definition emit (e : event) (w : world) : world :=
  {| geolocator := geolocator w; files := files w;
     trace := trace w ++ [e] |}.

(** [self.geolocator.geocode(address, timeout=...)] *)
Definition geolocator_geocode (address : string) (timeout : Z)
  : M (option (coord * coord)) :=
  fun w =>
    let (r, s) := service_geocode (geolocator w) address timeout in
    (r, emit (Geocode address timeout)
          {| geolocator := s; files := files w; trace := trace w |}).

(** [gpd.read_file(path)] *)
Definition read_file (path : string) : M shapefile :=
  fun w =>
    (match files w path with
     | Some f => Ok f
     | None => Raise DataSourceError
     end, emit (ReadFile path) w).

(** [try: body except exn: handler] *)
Definition try_except (A : Type) (body : M A) (exn : pyexn)
    (handler : M A) : M A :=
  fun w =>
    match body w with
    | (Raise e, w') =>
        if pyexn_eq_dec e exn then handler w' else (Raise e, w')
    | r => r
    end.

(* --------------------------------------------------------------- *)
(** *** [geocode_address], [geocode_data] *)

Definition address_of (row : group_row) : string :=
  FAC (key row) ++ ", " ++ LOC (key row) ++ ", " ++ GPE (key row).

Definition geocode_address (row : group_row) : M (pyfloat * pyfloat) :=
  try_except
    (let address := address_of row in
     location <- geolocator_geocode address 10 ;;
     match location with
     | Some (latitude, longitude) => ret (Float latitude, Float longitude)
     | None => ret (NaN, NaN)
     end)
    GeocoderTimedOut
    (ret (NaN, NaN)).

Record geocoded_row : Type := {
  group : group_row;
  Latitude : pyfloat;
  Longitude : pyfloat
}.

Definition isna (v : pyfloat) : bool :=
  match v with NaN => true | Float _ => false end.

(** [df.dropna(subset=['Latitude', 'Longitude'])] *)
Definition dropna (df : list geocoded_row) : list geocoded_row :=
  filter (fun r => negb (isna (Latitude r) || isna (Longitude r))) df.

Definition set_coordinates (data : list group_row)
    (coords : list (pyfloat * pyfloat)) : list geocoded_row :=
  map (fun rc => {| group := fst rc; Latitude := fst (snd rc);
                    Longitude := snd (snd rc) |})
      (combine data coords).

(** The row of NaN as [geocode_address] formats it: the address is
    ["nan, nan, nan"]. *)
Definition nan_row : group_row :=
  {| key := {| FAC := "nan"; LOC := "nan"; GPE := "nan" |}; count := 0 |}.

(** [geocode_address] on the row of NaN makes its lookup; it returns a
    Series, or raises an exception that [apply] swallows. *)
Definition probe_geocode : M probed :=
  fun w => (Ok Kept, snd (geocode_address nan_row w)).

Definition geocode_data (data : list group_row) : M (list geocoded_row) :=
  coords <- apply_rows geocode_address probe_geocode data ;;
  let df := set_coordinates data coords in
  ret (dropna df).

(* --------------------------------------------------------------- *)
(** *** [create_geodataframe] *)

(** A row of the GeoDataFrame: the attribute columns and the column
    named [geometry] ([None] for a missing cell). *)
Record spatial_row : Type := {
  attrs : geocoded_row;
  geometry : option geom
}.

Record processor : Type := {
  shapefile_path : string
}.

Definition geom_within (g : option geom) (p : polygon) : bool :=
  match g with
  | Some (Point (Float x) (Float y)) => within x y p
  | _ => false
  end.

(** [gpd.sjoin(gdf, selected_states, how='inner', predicate='within')]
    restricted to the columns of the left frame: one row per pair of a
    point and a polygon that contains it. *)
Definition sjoin_within (gdf : list spatial_row)
    (selected_states : list boundary_row) : list spatial_row :=
  flat_map
    (fun l =>
       map (fun _ => l)
           (filter (fun r => geom_within (geometry l) (boundary r))
                   selected_states))
    gdf.

(** [if target_states:] on [None] or a list. *)
Definition truthy (A : Type) (v : option (list A)) : bool :=
  match v with
  | None | Some [] => false
  | Some (_ :: _) => true
  end.

Definition isin (x : string) (values : option (list string)) : bool :=
  match values with
  | None => false
  | Some vs => existsb (String.eqb x) vs
  end.

Definition create_geodataframe (self : processor) (df : list geocoded_row)
    (target_states : option (list string)) : M (list spatial_row) :=
  let gdf :=
    map (fun r => {| attrs := r;
                     geometry := Some (Point (Longitude r) (Latitude r)) |})
        df in
  let gdf_crs := "EPSG:4326" in
  if truthy target_states then
    cultural_gdf <- read_file (shapefile_path self) ;;
    let selected_states :=
      filter (fun r => isin (name r) target_states)
             (features cultural_gdf) in
    let selected_states :=
      if String.eqb gdf_crs (crs cultural_gdf) then selected_states
      else map (fun r => {| name := name r;
                            boundary := to_crs (crs cultural_gdf) gdf_crs
                                               (boundary r) |})
               selected_states in
    ret (sjoin_within gdf selected_states)
  else
    ret gdf.

(* --------------------------------------------------------------- *)
(** *** [add_state_polygons] *)

(** A row after [gdf.merge(cultural_gdf[['name', 'geometry']], ...)].
    Both frames have a column [geometry], so pandas renames the left one
    to [geometry_x] and the right one to [geometry_y]; the merged frame
    has no column [geometry]. *)
Record merged_row : Type := {
  m_attrs : geocoded_row;
  geometry_x : option geom;
  make_polygon : Z;
  GPE_lower : string;
  name_right : option string;
  geometry_y : option geom
}.

(** A row of the frame the method returns: [GPE_lower], [name] and
    [geometry_y] dropped, and the column [geometry] that line 173
    creates. *)
Record state_row : Type := {
  s_attrs : geocoded_row;
  s_geometry_x : option geom;
  s_make_polygon : Z;
  s_geometry : option geom
}.

Definition GPE_of (r : spatial_row) : string := GPE (key (group (attrs r))).

(** The lambda of line 158 *)
Definition make_polygon_of (row : spatial_row) : Z :=
  let k := key (group (attrs row)) in
  if String.eqb (FAC k) "" && String.eqb (LOC k) ""
     && contains_us_state_exact (GPE k)
  then 1%Z else 0%Z.

(** [how='left'] on [GPE_lower] = [name]: every left row once per
    matching right row, in order; a left row without a match once, with
    the right columns missing. *)
Definition merge_left (gdf : list (spatial_row * Z))
    (cultural : list boundary_row) : list merged_row :=
  flat_map
    (fun lz =>
       let l := fst lz in
       let gpe_lower := strip is_space (lower (GPE_of l)) in
       let row n g :=
         {| m_attrs := attrs l; geometry_x := geometry l;
            make_polygon := snd lz; GPE_lower := gpe_lower;
            name_right := n; geometry_y := g |} in
       match filter (fun r => String.eqb gpe_lower (name r)) cultural with
       | [] => [row None None]
       | matches =>
           map (fun r => row (Some (name r)) (Some (Polygon (boundary r))))
               matches
       end)
    gdf.

(** Line 173, [gdf.loc[mask, 'geometry'] = gdf.loc[mask, 'geometry_y']]
    on a frame without a column [geometry]: the column is created, set
    on the rows of the mask and missing on the others.  Line 174 then
    drops the three helper columns. *)
Definition assign_geometry (r : merged_row) : state_row :=
  {| s_attrs := m_attrs r;
     s_geometry_x := geometry_x r;
     s_make_polygon := make_polygon r;
     s_geometry := if (make_polygon r =? 1)%Z then geometry_y r else None |}.

Definition add_state_polygons (self : processor) (gdf : list spatial_row)
  : M (list state_row) :=
  flags <- apply_rows (fun row => ret (make_polygon_of row))
             (ret Reduced) gdf ;;
  cultural_gdf <- read_file (shapefile_path self) ;;
  let cultural :=
    map (fun r => {| name := lower (name r); boundary := boundary r |})
        (features cultural_gdf) in
  let merged := merge_left (combine gdf flags) cultural in
  ret (map assign_geometry merged).

(** Lines 185-190 of [clean_and_export_geojson]: the active geometry is
    the column [geometry]; every column whose name starts with
    [geometry_] is dropped. *)
Record exported_row : Type := {
  e_attrs : geocoded_row;
  e_make_polygon : Z;
  e_geometry : option geom
}.

Definition clean_geometry (gdf : list state_row) : list exported_row :=
  map (fun r => {| e_attrs := s_attrs r;
                   e_make_polygon := s_make_polygon r;
                   e_geometry := s_geometry r |})
      gdf.

End Pipeline.

Arguments NaN {coord}.
Arguments Point {coord polygon} x y.
Arguments Polygon {coord polygon} p.

(* ================================================================= *)
(** ** Vocabulary of the statements *)

(** A label item as the annotator writes it: [[start, end, type]] with
    integer bounds, in range or not. *)
Definition int_span (v : pyval) : Prop :=
  exists (start end_ : Z) (entity_type : pyval),
    v = PList [PInt start; PInt end_; entity_type].

Definition span_text (txt : string) (v : pyval) : string :=
  match v with
  | PList [PInt start; PInt end_; _] => slice txt (Some start) (Some end_)
  | _ => ""
  end.

Definition span_has_type (ty : string) (v : pyval) : bool :=
  match v with
  | PList [_; _; entity_type] => eq_str entity_type ty
  | _ => false
  end.

Definition well_labelled (ner_entities : list ner_row) : Prop :=
  Forall (fun row => Forall int_span (label row)) ner_entities.

(** The entity texts of one type, in span order. *)
Definition texts_of_type (ty : string) (row : ner_row) : list string :=
  map (span_text (text row)) (filter (span_has_type ty) (label row)).

Definition entities_of (row : ner_row) : extracted :=
  {| FAC := texts_of_type "FAC" row;
     LOC := texts_of_type "LOC" row;
     GPE := texts_of_type "GPE" row |}.

(** The order a comparison function decides. *)
Definition le_of (A : Type) (leb : A -> A -> bool) (a b : A) : Prop :=
  leb a b = true.

(** A span clamped in the words of the specification: both bounds are
    forced into the text. *)
Definition clamp_spec (txt : string) (start end_ : Z) : string :=
  let n := Z.of_nat (String.length txt) in
  let lo := Z.max 0 (Z.min start n) in
  let hi := Z.max 0 (Z.min end_ n) in
  substring (Z.to_nat lo) (Z.to_nat (hi - lo)) txt.

(** A bound as Python reads it before any clamping: a negative bound
    counts from the end of the text. *)
Definition from_end (txt : string) (i : Z) : Z :=
  if (i <? 0)%Z then (i + Z.of_nat (String.length txt))%Z else i.

Definition wrapped_text (txt : string) (v : pyval) : string :=
  match v with
  | PList [PInt start; PInt end_; _] =>
      clamp_spec txt (from_end txt start) (from_end txt end_)
  | _ => ""
  end.

(** The canonical string of one entity set, as the code computes it
    (lines 75-88 on one cell). *)
Definition canonicalize (x : list string) : string :=
  remove_hash (join_sorted x).

(** The canonical string in the words of the specification: strip the
    hash marks from every element, sort, join. *)
Definition canonicalize_spec (x : list string) : string :=
  join ", " (sorted String.leb (map remove_hash x)).

Definition empty_key : cols string := {| FAC := ""; LOC := ""; GPE := "" |}.

(** The number of records of the empty-key group. *)
Definition empty_key_group_size (keys : list (cols string)) : nat :=
  count_occ key_eq_dec keys empty_key.

(** The row that [iloc[1:]] removes, if there is one. *)
Definition discarded_group (keys : list (cols string)) : option group_row :=
  hd_error (df_cleaned keys).

Definition group_size (g : option group_row) : nat :=
  match g with
  | Some r => count r
  | None => 0
  end.

Definition total_count (groups : list group_row) : nat :=
  fold_right (fun g n => count g + n) 0 groups.

(** The keys of a batch whose labels are well formed. *)
Definition keys_of (ner_entities : list ner_row) : list (cols string) :=
  map (fun row => canonical_key (entities_of row)) ner_entities.

(** [max_rows] cuts no group off: it is [None] or [0], or at most
    [max_rows] groups are left once the first one is dropped. *)
Definition keeps_all (max_rows : option Z) (keys : list (cols string))
  : Prop :=
  match max_rows with
  | None => True
  | Some n =>
      n = 0%Z \/
      (Z.of_nat (List.length (nodup key_eq_dec keys)) - 1 <= n)%Z
  end.

Section PipelineVocabulary.

Variable coord : Type.
Variable service : Type.
Variable service_geocode :
  service -> string -> Z -> result (option (coord * coord)) * service.

(** The service answers, or times out: the lookup contract of the
    geocoding collaborator. *)
Definition only_times_out : Prop :=
  forall s address timeout e,
    fst (service_geocode s address timeout) = Raise e ->
    e = GeocoderTimedOut.

(** What the service returns when asked once for every group in turn. *)
Fixpoint lookups (s : service) (data : list group_row)
  : list (result (option (coord * coord))) :=
  match data with
  | [] => []
  | g :: rest =>
      fst (service_geocode s (address_of g) 10)
      :: lookups (snd (service_geocode s (address_of g) 10)) rest
  end.

(** The two cells [geocode_address] returns for a lookup result. *)
Definition coordinates_of (r : result (option (coord * coord)))
  : pyfloat coord * pyfloat coord :=
  match r with
  | Ok (Some (latitude, longitude)) => (Float latitude, Float longitude)
  | _ => (NaN, NaN)
  end.

(** The service after it was asked once for every group in turn. *)
Fixpoint service_after (s : service) (data : list group_row) : service :=
  match data with
  | [] => s
  | g :: rest =>
      service_after (snd (service_geocode s (address_of g) 10)) rest
  end.

(** A group whose lookup found a location, with its coordinates. *)
Definition resolved (gr : group_row * result (option (coord * coord)))
  : option (geocoded_row coord) :=
  match snd gr with
  | Ok (Some (latitude, longitude)) =>
      Some {| group := fst gr; Latitude := Float latitude;
              Longitude := Float longitude |}
  | _ => None
  end.

Fixpoint filter_map (A B : Type) (f : A -> option B) (l : list A)
  : list B :=
  match l with
  | [] => []
  | a :: t =>
      match f a with
      | Some b => b :: filter_map f t
      | None => filter_map f t
      end
  end.

End PipelineVocabulary.

(* ================================================================= *)
(** ** Sample inputs *)

Definition span (start end_ : Z) (entity_type : string) : pyval :=
  PList [PInt start; PInt end_; PStr entity_type].

(** A record with spans past the end of the text, wholly outside it, and
    with negative bounds. *)
Definition wrapping_row : ner_row :=
  {| text := "Port of Tampa";
     label := [ span 0 13 "FAC"; span 8 400 "GPE"; span 50 60 "LOC";
                span (-5) 13 "GPE"; span (-8) (-6) "GPE";
                span (-400) 4 "LOC"; span (-5) (-20) "ORG" ] |}.

(** A record whose only span starts five characters before the end. *)
Definition negative_bound_row : ner_row :=
  {| text := "Port of Tampa"; label := [ span (-5) 13 "GPE" ] |}.

(** The sets of the specification's example for the cross-type rule. *)
Definition city_hall_sets : cols (list string) :=
  {| FAC := ["City Hall"; "Tampa"]; LOC := ["Tampa"]; GPE := [] |}.

(** One record mentions Tampa as a hashtag. *)
Definition hashtag_entities : extracted :=
  {| FAC := []; LOC := []; GPE := ["#Tampa"; "Miami"] |}.

(** A batch whose only record names Tampa. *)
Definition tampa_batch : list ner_row :=
  [ {| text := "Tampa"; label := [span 0 5 "GPE"] |} ].

(** One record without entities and two that name Tampa, the second span
    taking in the space after the name. *)
Definition trailing_space_batch : list ner_row :=
  [ {| text := "no place named"; label := [] |};
    {| text := "Tampa flooding"; label := [span 0 5 "GPE"] |};
    {| text := "Tampa flooding"; label := [span 0 6 "GPE"] |} ].

(** One record without entities and three cities. *)
Definition four_record_batch : list ner_row :=
  [ {| text := "no place named"; label := [] |};
    {| text := "Miami"; label := [span 0 5 "GPE"] |};
    {| text := "Ocala"; label := [span 0 5 "GPE"] |};
    {| text := "Tampa"; label := [span 0 5 "GPE"] |} ].

(** A geocoding service that knows Tampa, times out on Miami and finds
    nothing else; its state counts the lookups. *)
Definition sample_geocode (s : nat) (address : string) (timeout : Z)
  : result (option (Z * Z)) * nat :=
  (if String.eqb address ", , Tampa" then Ok (Some (27, -82)%Z)
   else if String.eqb address ", , Miami" then Raise GeocoderTimedOut
   else Ok None,
   S s).

Definition group_of (gpe : string) (n : nat) : group_row :=
  {| key := {| FAC := ""; LOC := ""; GPE := gpe |}; count := n |}.

Definition sample_groups : list group_row :=
  [ group_of "Miami" 2; group_of "Tampa" 3; group_of "Atlantis" 1 ].

(** Boundary files: one with Florida, one with Georgia only.  Polygons
    are named by a string. *)
Definition sample_files (path : string) : option (shapefile string) :=
  if String.eqb path "states.shp" then
    Some {| crs := "EPSG:4326";
            features := [ {| name := "Florida"; boundary := "FL outline" |};
                          {| name := "Georgia"; boundary := "GA outline" |} ] |}
  else if String.eqb path "georgia.shp" then
    Some {| crs := "EPSG:4326";
            features := [ {| name := "Georgia"; boundary := "GA outline" |} ] |}
  else None.

Definition sample_world : world string nat :=
  {| geolocator := 0; files := sample_files; trace := [] |}.

Definition point_row (gpe : string) (lat lon : Z) : spatial_row Z string :=
  {| attrs := {| group := group_of gpe 1; Latitude := Float lat;
                 Longitude := Float lon |};
     geometry := Some (Point (Float lon) (Float lat)) |}.

(** The two records of the specification's substitution example. *)
Definition panhandle_gdf : list (spatial_row Z string) :=
  [ point_row "Florida Panhandle" 30 (-86); point_row "Florida" 28 (-82) ].

Definition florida_gdf : list (spatial_row Z string) :=
  [ point_row "Florida" 28 (-82) ].

(* ================================================================= *)
(** ** [main], between loading and export *)

Section Main.

Variable coord : Type.
Variable polygon : Type.
Variable within : coord -> coord -> polygon -> bool.
Variable to_crs : string -> string -> polygon -> polygon.
Variable service : Type.
Variable service_geocode :
  service -> string -> Z -> result (option (coord * coord)) * service.

(** A computation that touches neither the service nor the files. *)
Definition lift (A : Type) (r : result A) : M polygon service A :=
  fun w => (r, w).

(** Lines 234-240 of [main]: the frames from [process_entities] to the
    frame that [clean_and_export_geojson] writes and returns. *)
Definition main_frames (self : processor) (ner_entities : list ner_row)
    (max_rows : option Z) (states : option (list string))
  : M polygon service (list (exported_row coord polygon)) :=
  processed_data <- lift (process_entities ner_entities max_rows) ;;
  geocoded_data <- geocode_data service_geocode processed_data ;;
  gdf <- create_geodataframe within to_crs self geocoded_data states ;;
  gdf <- add_state_polygons self gdf ;;
  ret (clean_geometry gdf).

End Main.

(* ================================================================= *)
(** ** More vocabulary *)

(** A span whose type is one of the three the extractor keeps. *)
Definition recognized (v : pyval) : bool :=
  span_has_type "FAC" v || span_has_type "LOC" v || span_has_type "GPE" v.

Definition same_set (a b : list string) : Prop :=
  forall s : string, In s a <-> In s b.

Definition has_char (c : ascii) (s : string) : Prop :=
  In c (list_ascii_of_string s).

Definition first_char (s : string) : option ascii :=
  match s with
  | EmptyString => None
  | String c _ => Some c
  end.

Fixpoint last_char (s : string) : option ascii :=
  match s with
  | EmptyString => None
  | String c EmptyString => Some c
  | String _ s' => last_char s'
  end.

(** [s] neither starts nor ends with a character of the set [p]. *)
Definition trimmed (p : ascii -> bool) (s : string) : Prop :=
  (forall c, first_char s = Some c -> p c = false) /\
  (forall c, last_char s = Some c -> p c = false).

Definition all_cols (P : string -> Prop) (k : cols string) : Prop :=
  P (FAC k) /\ P (LOC k) /\ P (GPE k).

(** The number of distinct keys of a batch. *)
Definition distinct_keys (keys : list (cols string)) : nat :=
  List.length (nodup key_eq_dec keys).

(** The rows [geocode_data] calls [geocode_address] on: the rows of the
    frame, or the row of NaN when the frame has none. *)
Definition looked_up (groups : list group_row) : list group_row :=
  match groups with
  | [] => [nan_row]
  | _ => groups
  end.

Definition is_geocode (e : event) : bool :=
  match e with
  | Geocode _ _ => true
  | ReadFile _ => false
  end.

(** A lookup that returns or times out. *)
Definition answers (A : Type) (r : result A) : Prop :=
  forall e, r = Raise e -> e = GeocoderTimedOut.

(** A lookup that finds no location: [None], or a timeout. *)
Definition finds_nothing (A : Type) (r : result (option A)) : Prop :=
  r = Ok None \/ r = Raise GeocoderTimedOut.

(** The point row that [create_geodataframe] builds from a geocoded row. *)
Definition point_of (coord polygon : Type) (r : geocoded_row coord)
  : spatial_row coord polygon :=
  {| attrs := r; geometry := Some (Point (Longitude r) (Latitude r)) |}.

(** The boundary polygons as [create_geodataframe] compares them: in the
    frame's reference system. *)
Definition in_frame_crs (polygon : Type)
    (to_crs : string -> string -> polygon -> polygon)
    (f : shapefile polygon) (b : boundary_row polygon) : polygon :=
  if String.eqb "EPSG:4326" (crs f) then boundary b
  else to_crs (crs f) "EPSG:4326" (boundary b).

(** A value that Python refuses as a slice bound. *)
Definition not_a_bound (v : pyval) : Prop :=
  match v with
  | PInt _ | PBool _ | PNone => False
  | PFloat | PStr _ | PList _ => True
  end.

(** A record whose label holds a span of an unknown type among the
    others. *)
Definition mixed_row : ner_row :=
  {| text := "Storm near Tampa Bay";
     label := [ span 0 5 "EVENT"; span 11 16 "GPE"; span 11 20 "LOC" ] |}.

(** A label whose second item lacks the type, and one whose second item
    has a string for a bound. *)
Definition short_item_row : ner_row :=
  {| text := "Tampa";
     label := [ span 0 5 "GPE"; PList [PInt 0; PInt 5]; span 0 5 "LOC" ] |}.

Definition string_bound_row : ner_row :=
  {| text := "Tampa";
     label := [ span 0 5 "GPE"; PList [PStr "0"; PInt 5; PStr "GPE"] ] |}.

(** Two records with the same entities, mentioned in another order and
    more than once. *)
Definition mentions_a : extracted :=
  {| FAC := ["Pier 60"; "Pier 60"]; LOC := ["Gulf Coast"];
     GPE := ["Tampa"; "Clearwater"; "Tampa"] |}.

Definition mentions_b : extracted :=
  {| FAC := ["Pier 60"]; LOC := ["Gulf Coast"; "Gulf Coast"];
     GPE := ["Clearwater"; "Tampa"] |}.

(** A batch of three records that all name Tampa. *)
Definition tampa_thrice : list ner_row :=
  [ {| text := "Tampa floods"; label := [span 0 5 "GPE"] |};
    {| text := "Tampa again"; label := [span 0 5 "GPE"] |};
    {| text := "In Tampa"; label := [span 3 8 "GPE"] |} ].

(** The number of rows [process_entities] returns for [groups] distinct
    keys. *)
Definition rows_returned (max_rows : option Z) (groups : Z) : Z :=
  match max_rows with
  | None => groups - 1
  | Some n =>
      if (n =? 0)%Z then groups - 1
      else if (n <? 0)%Z then Z.max (groups - 1 + n) 0
      else Z.min n (groups - 1)
  end.

(** A geocoding service that knows Tampa, fails on Atlantis with a
    service error and finds nothing else. *)
Definition failing_geocode (s : nat) (address : string) (timeout : Z)
  : result (option (Z * Z)) * nat :=
  (if String.eqb address ", , Tampa" then Ok (Some (27, -82)%Z)
   else if String.eqb address ", , Atlantis" then Raise GeocoderServiceError
   else Ok None,
   S s).

Definition groups_with_atlantis : list group_row :=
  [ group_of "Tampa" 3; group_of "Atlantis" 1; group_of "Miami" 2 ].

(** A geocoding service that is down: every lookup times out. *)
Definition offline_geocode (s : nat) (address : string) (timeout : Z)
  : result (option (Z * Z)) * nat :=
  (Raise GeocoderTimedOut, S s).

Definition same_crs (from to : string) (p : string) : string := p.

Section Lookups.

Variable polygon : Type.
Variable coord : Type.
Variable service : Type.
Variable service_geocode :
  service -> string -> Z -> result (option (coord * coord)) * service.

(** The world after one lookup for [row], and after one lookup for every
    row of [data] in turn. *)
Definition after_lookup (row : group_row) (w : world polygon service)
  : world polygon service :=
  {| geolocator := snd (service_geocode (geolocator w) (address_of row) 10%Z);
     files := files w;
     trace := trace w ++ [Geocode (address_of row) 10] |}.

Definition after_lookups (data : list group_row) (w : world polygon service)
  : world polygon service :=
  {| geolocator := service_after service_geocode (geolocator w) data;
     files := files w;
     trace := trace w ++ map (fun g => Geocode (address_of g) 10) data |}.

End Lookups.

(** The boundary names as [add_state_polygons] compares them. *)
Definition lower_names (polygon : Type) (f : shapefile polygon)
  : list string :=
  map (fun b => lower (name b)) (features f).

(** A frame with a state, a city inside it and a landmark. *)
Definition mixed_gdf : list (spatial_row Z string) :=
  [ point_row "Georgia" 33 (-83); point_row "Tampa" 27 (-82);
    point_row " FLORIDA " 28 (-82) ].

(** A point is inside the polygon named for the side of the meridian 84
    degrees west it lies on. *)
Definition east_or_west (x y : Z) (p : string) : bool :=
  if (x <? -84)%Z then String.eqb p "west" else String.eqb p "east".

Definition halves_files (path : string) : option (shapefile string) :=
  if String.eqb path "halves.shp" then
    Some {| crs := "EPSG:4326";
            features := [ {| name := "West"; boundary := "west" |};
                          {| name := "East"; boundary := "east" |} ] |}
  else None.

Definition halves_world : world string nat :=
  {| geolocator := 0; files := halves_files; trace := [] |}.

Definition two_cities : list (geocoded_row Z) :=
  [ {| group := group_of "Pensacola" 1; Latitude := Float 30%Z;
       Longitude := Float (-87)%Z |};
    {| group := group_of "Tampa" 1; Latitude := Float 28%Z;
       Longitude := Float (-82)%Z |} ].

(* ================================================================= *)
(** ** Span extraction *)

Lemma adjust_index_range (n i : Z) :
  (0 <= n -> 0 <= adjust_index n i <= n)%Z.
Proof.
  unfold adjust_index; intros Hn.
  destruct (i <? 0)%Z eqn:E; [apply Z.ltb_lt in E | apply Z.ltb_ge in E]; lia.
Qed.

Lemma adjust_index_in_range (n i : Z) :
  (0 <= i <= n -> adjust_index n i = i)%Z.
Proof.
  unfold adjust_index; intros H.
  destruct (i <? 0)%Z eqn:E; [apply Z.ltb_lt in E | apply Z.ltb_ge in E]; lia.
Qed.

(** A span inside the text is cut out as it stands. *)
Lemma slice_in_range (txt : string) (start end_ : nat) :
  (start <= end_ <= String.length txt)%nat ->
  slice txt (Some (Z.of_nat start)) (Some (Z.of_nat end_))
  = substring start (end_ - start) txt.
Proof.
  intros H. unfold slice.
  rewrite !adjust_index_in_range by lia.
  f_equal; lia.
Qed.

Lemma eq_str_exclusive (v : pyval) (a b : string) :
  a <> b -> eq_str v a = true -> eq_str v b = false.
Proof.
  destruct v; simpl; try discriminate.
  intros Hab Ha. apply String.eqb_eq in Ha. subst.
  now apply String.eqb_neq.
Qed.

Lemma extract_loop_int_spans (txt : string) (spans : list pyval) :
  Forall int_span spans ->
  forall fac loc gpe,
    extract_loop txt spans fac loc gpe
    = Ok {| FAC := fac ++ map (span_text txt) (filter (span_has_type "FAC") spans);
            LOC := loc ++ map (span_text txt) (filter (span_has_type "LOC") spans);
            GPE := gpe ++ map (span_text txt) (filter (span_has_type "GPE") spans) |}.
Proof.
  induction 1 as [| item rest Hitem _ IH]; intros fac loc gpe.
  - simpl. now rewrite !app_nil_r.
  - destruct Hitem as (s & e & ty & ->).
    cbn [extract_loop unpack3 bind result_Monad getitem_slice slice_bound ret].
    cbn [filter span_has_type].
    destruct (eq_str ty "FAC") eqn:EF.
    { rewrite (@eq_str_exclusive ty "FAC" "LOC" ltac:(discriminate) EF).
      rewrite (@eq_str_exclusive ty "FAC" "GPE" ltac:(discriminate) EF).
      rewrite IH. cbn [map span_text]. now rewrite <- app_assoc. }
    destruct (eq_str ty "LOC") eqn:EL.
    { rewrite (@eq_str_exclusive ty "LOC" "GPE" ltac:(discriminate) EL).
      rewrite IH. cbn [map span_text]. now rewrite <- app_assoc. }
    destruct (eq_str ty "GPE") eqn:EG.
    { rewrite IH. cbn [map span_text]. now rewrite <- app_assoc. }
    apply IH.
Qed.

Lemma extract_entities_int_spans (row : ner_row) :
  Forall int_span (label row) ->
  extract_entities_by_type row = Ok (entities_of row).
Proof.
  intros H. unfold extract_entities_by_type.
  now rewrite extract_loop_int_spans.
Qed.

Lemma adjust_index_from_end (txt : string) (i : Z) :
  adjust_index (Z.of_nat (String.length txt)) i
  = Z.max 0 (Z.min (from_end txt i) (Z.of_nat (String.length txt))).
Proof.
  unfold adjust_index, from_end.
  destruct (i <? 0)%Z eqn:E; [apply Z.ltb_lt in E | apply Z.ltb_ge in E]; lia.
Qed.

Lemma slice_wraps_then_clamps (txt : string) (start end_ : Z) :
  slice txt (Some start) (Some end_)
  = clamp_spec txt (from_end txt start) (from_end txt end_).
Proof.
  unfold slice, clamp_spec. now rewrite !adjust_index_from_end.
Qed.

(** Bounds that are not negative are clamped, as the specification has
    it. *)
Lemma wrapped_text_nonnegative (txt : string) (start end_ : Z)
    (entity_type : pyval) :
  (0 <= start)%Z -> (0 <= end_)%Z ->
  wrapped_text txt (PList [PInt start; PInt end_; entity_type])
  = clamp_spec txt start end_.
Proof.
  intros Hs He. cbn [wrapped_text]. unfold from_end.
  destruct (Z.ltb_spec start 0); [lia |].
  destruct (Z.ltb_spec end_ 0); [lia | reflexivity].
Qed.

Lemma span_text_wrapped (txt : string) (spans : list pyval) :
  Forall int_span spans ->
  map (span_text txt) spans = map (wrapped_text txt) spans.
Proof.
  induction 1 as [| v rest (s & e & ty & ->) _ IH]; [reflexivity |].
  cbn [map span_text wrapped_text].
  now rewrite slice_wraps_then_clamps, IH.
Qed.

(** C9, as the code has it. Extraction never fails on spans with integer
    bounds, whatever the integers: it returns the three lists, one text
    per span of the type, in span order.  A bound beyond the end of the
    text is clamped to the end; a negative bound is not clamped but
    counts from the end of the text, and is clamped to the start only
    when it reaches before it. *)
Theorem extract_entities_wraps_negative_bounds (row : ner_row) :
  Forall int_span (label row) ->
  exists e : extracted,
    extract_entities_by_type row = Ok e /\
    FAC e = map (wrapped_text (text row))
                (filter (span_has_type "FAC") (label row)) /\
    LOC e = map (wrapped_text (text row))
                (filter (span_has_type "LOC") (label row)) /\
    GPE e = map (wrapped_text (text row))
                (filter (span_has_type "GPE") (label row)).
Proof.
  intros H. exists (entities_of row).
  split; [now apply extract_entities_int_spans |].
  unfold entities_of, texts_of_type. cbn [FAC LOC GPE].
  repeat split; apply span_text_wrapped;
    rewrite Forall_forall in *; intros v Hv;
    apply filter_In in Hv; now apply H.
Qed.

Lemma extract_entities_wraps_negative_bounds_witness :
  exists e : extracted,
    extract_entities_by_type wrapping_row = Ok e /\
    FAC e = ["Port of Tampa"] /\
    LOC e = [""; "Port"] /\
    GPE e = ["Tampa"; "Tampa"; "of"].
Proof.
  apply (extract_entities_wraps_negative_bounds wrapping_row).
  unfold wrapping_row, span; cbn [label].
  repeat (constructor; [unfold int_span; eauto |]). constructor.
Defined.

(** C9 as stated fails: the span [-5, 13] of "Port of Tampa" is neither
    clamped, which would give the whole text, nor skipped: it yields
    "Tampa", the last five characters. *)
Lemma negative_bound_neither_clamped_nor_skipped :
  extract_entities_by_type negative_bound_row
  = Ok {| FAC := []; LOC := []; GPE := ["Tampa"] |} /\
  clamp_spec (text negative_bound_row) (-5) 13 = "Port of Tampa" /\
  ~ (exists e : extracted,
       extract_entities_by_type negative_bound_row = Ok e /\
       (GPE e = [clamp_spec (text negative_bound_row) (-5) 13] \/
        GPE e = [])).
Proof.
  split; [reflexivity |]. split; [reflexivity |].
  intros (e & He & [Hg | Hg]);
    assert (E : extract_entities_by_type negative_bound_row
                = Ok {| FAC := []; LOC := []; GPE := ["Tampa"] |})
      by reflexivity;
    rewrite E in He; injection He as <-; cbn [GPE] in Hg; discriminate.
Qed.

(* ================================================================= *)
(** ** Cross-type exclusion and canonical strings *)

Lemma not_in_spec (entity : string) (xs : list string) :
  not_in entity xs = true <-> ~ In entity xs.
Proof.
  unfold not_in. rewrite negb_true_iff. split.
  - intros H Hin.
    assert (E : existsb (String.eqb entity) xs = true).
    { apply existsb_exists. exists entity. split; [assumption |].
      apply String.eqb_refl. }
    congruence.
  - intros H. destruct (existsb (String.eqb entity) xs) eqn:E; [| reflexivity].
    apply existsb_exists in E. destruct E as (y & Hy & Heq).
    apply String.eqb_eq in Heq. subst. contradiction.
Qed.


Example cross_type_exclusion_city_hall :
  canonical_key city_hall_sets
  = {| FAC := "City Hall"; LOC := "Tampa"; GPE := "" |}.
Proof. reflexivity. Qed.

Lemma canonical_key_columns (e : extracted) :
  canonical_key e
  = {| FAC := canonicalize
                (filter (fun entity => not_in entity (py_set (LOC e)))
                        (py_set (FAC e)));
       LOC := canonicalize (py_set (LOC e));
       GPE := canonicalize (py_set (GPE e)) |}.
Proof. reflexivity. Qed.

Lemma remove_char_append (c : ascii) (a b : string) :
  remove_char c (a ++ b) = (remove_char c a ++ remove_char c b)%string.
Proof.
  induction a as [| x a IH]; simpl; [reflexivity |].
  destruct (Ascii.eqb x c); simpl; now rewrite IH.
Qed.

Lemma remove_hash_join (parts : list string) :
  remove_hash (join ", " parts) = join ", " (map remove_hash parts).
Proof.
  unfold remove_hash.
  induction parts as [| p rest IH]; [reflexivity |].
  destruct rest as [| q rest]; [reflexivity |].
  change (join ", " (p :: q :: rest))
    with (p ++ ", " ++ join ", " (q :: rest))%string.
  rewrite !remove_char_append, IH. reflexivity.
Qed.

Lemma Forall_insert_sorted (A : Type) (leb : A -> A -> bool)
    (P : A -> Prop) (x : A) (l : list A) :
  P x -> Forall P l -> Forall P (insert_sorted leb x l).
Proof.
  intros Hx. induction 1 as [| y t Hy Ht IH]; simpl.
  - now constructor.
  - destruct (leb x y); repeat constructor; assumption.
Qed.

Lemma Forall_sorted (A : Type) (leb : A -> A -> bool) (P : A -> Prop)
    (l : list A) :
  Forall P l -> Forall P (sorted leb l).
Proof.
  induction 1; simpl; [constructor | now apply Forall_insert_sorted].
Qed.

Lemma map_fixed (A : Type) (f : A -> A) (l : list A) :
  Forall (fun a => f a = a) l -> map f l = l.
Proof. induction 1; simpl; congruence. Qed.

(** On sets without a hash mark the code and the specification agree. *)
Lemma canonicalize_without_hash (x : list string) :
  Forall (fun s => remove_hash s = s) x ->
  canonicalize x = canonicalize_spec x.
Proof.
  intros H. unfold canonicalize, canonicalize_spec, join_sorted.
  rewrite remove_hash_join, !map_fixed; auto using Forall_sorted.
Qed.

(** C3, as the code has it. Every entity column of a record's key is its
    set sorted as extracted, hash marks included, then joined with [", "]
    with the hash marks removed: join(map(strip-hash, sort(set))). The FAC
    set is the one left by the cross-type exclusion. *)
Theorem canonical_key_sorted_before_strip (e : extracted) :
  canonical_key e
  = {| FAC := join ", " (map remove_hash (sorted String.leb
                (filter (fun entity => not_in entity (py_set (LOC e)))
                        (py_set (FAC e)))));
       LOC := join ", " (map remove_hash (sorted String.leb (py_set (LOC e))));
       GPE := join ", " (map remove_hash (sorted String.leb (py_set (GPE e)))) |}.
Proof.
  rewrite canonical_key_columns. unfold canonicalize, join_sorted.
  now rewrite !remove_hash_join.
Qed.

(** C3 as stated fails: ["#Tampa"] sorts before ["Miami"], so the code
    yields "Tampa, Miami" where the stated formula yields "Miami, Tampa". *)
Lemma canonical_key_not_strip_then_sort :
  GPE (canonical_key hashtag_entities)
  <> canonicalize_spec (py_set (GPE hashtag_entities)).
Proof.
  assert (Hc : GPE (canonical_key hashtag_entities) = "Tampa, Miami")
    by reflexivity.
  assert (Hs : canonicalize_spec (py_set (GPE hashtag_entities))
               = "Miami, Tampa") by reflexivity.
  rewrite Hc, Hs. discriminate.
Qed.

(* ================================================================= *)
(** ** Grouping *)

Lemma map_rows_extract (ner_entities : list ner_row) :
  well_labelled ner_entities ->
  map_rows extract_entities_by_type ner_entities
  = Ok (map entities_of ner_entities).
Proof.
  induction 1 as [| row rest Hrow _ IH]; [reflexivity |].
  cbn [map_rows bind result_Monad map].
  rewrite (extract_entities_int_spans row Hrow), IH. reflexivity.
Qed.

Lemma process_entities_well_labelled (ner_entities : list ner_row)
    (max_rows : option Z) :
  ner_entities <> [] ->
  well_labelled ner_entities ->
  process_entities ner_entities max_rows
  = Ok (process_keys (keys_of ner_entities) max_rows).
Proof.
  intros Hne Hwl. unfold process_entities, apply_rows, keys_of.
  destruct ner_entities as [| row rest]; [contradiction |].
  rewrite (map_rows_extract Hwl).
  cbn [bind result_Monad ret]. now rewrite map_map.
Qed.

Lemma Permutation_insert_sorted (A : Type) (leb : A -> A -> bool) (x : A)
    (l : list A) :
  Permutation (insert_sorted leb x l) (x :: l).
Proof.
  induction l as [| y t IH]; simpl; [reflexivity |].
  destruct (leb x y); [reflexivity |].
  rewrite IH. apply perm_swap.
Qed.

Lemma Permutation_sorted (A : Type) (leb : A -> A -> bool) (l : list A) :
  Permutation (sorted leb l) l.
Proof.
  induction l as [| x t IH]; simpl; [reflexivity |].
  rewrite Permutation_insert_sorted. now constructor.
Qed.

Lemma total_count_list_sum (groups : list group_row) :
  total_count groups = list_sum (map count groups).
Proof. induction groups; simpl; congruence. Qed.

Lemma list_sum_Permutation (l l' : list nat) :
  Permutation l l' -> list_sum l = list_sum l'.
Proof. induction 1; simpl; lia. Qed.

Lemma list_sum_cons (x : nat) (l : list nat) :
  list_sum (x :: l) = x + list_sum l.
Proof. reflexivity. Qed.

Lemma list_sum_map_add (A : Type) (f g : A -> nat) (l : list A) :
  list_sum (map (fun k => f k + g k) l)
  = list_sum (map f l) + list_sum (map g l).
Proof. induction l; simpl; lia. Qed.

Section Counting.

Variable A : Type.
Variable dec : forall a b : A, {a = b} + {a <> b}.

Lemma list_sum_indicator (a : A) (l : list A) :
  NoDup l ->
  list_sum (map (fun k => if dec a k then 1 else 0) l)
  = if in_dec dec a l then 1 else 0.
Proof.
  induction 1 as [| k l Hk Hl IH]; [reflexivity |].
  rewrite map_cons, list_sum_cons, IH.
  destruct (dec a k) as [-> | Hak].
  - destruct (in_dec dec k l); [contradiction |].
    destruct (in_dec dec k (k :: l)) as [_ | Hn]; [lia |].
    exfalso. apply Hn. now left.
  - destruct (in_dec dec a l) as [Hin | Hnin].
    + destruct (in_dec dec a (k :: l)) as [_ | Hn]; [lia |].
      exfalso. apply Hn. now right.
    + destruct (in_dec dec a (k :: l)) as [[Heq | Hin] | _]; [| | lia].
      * congruence.
      * contradiction.
Qed.

(** The sizes of the groups add up to the number of rows. *)
Lemma list_sum_count_occ (rows l : list A) :
  NoDup l ->
  (forall a, In a rows -> In a l) ->
  list_sum (map (count_occ dec rows) l) = List.length rows.
Proof.
  intros Hnd. induction rows as [| a rows IH]; intros Hsub.
  - cbn [count_occ List.length]. clear. induction l; simpl; auto.
  - assert (E : map (count_occ dec (a :: rows)) l
                = map (fun k => (if dec a k then 1 else 0)
                                + count_occ dec rows k) l).
    { apply map_ext. intros k. cbn [count_occ].
      destruct (dec a k); reflexivity. }
    rewrite E. clear E.
    rewrite (list_sum_map_add (fun k => if dec a k then 1 else 0)
                              (count_occ dec rows)).
    rewrite list_sum_indicator by assumption.
    rewrite IH by (intros; apply Hsub; now right).
    destruct (in_dec dec a l) as [_ | Hn]; [reflexivity |].
    exfalso. apply Hn, Hsub. now left.
Qed.

End Counting.

Lemma key_groupby_size (keys : list (cols string)) :
  map key (groupby_size keys) = sorted key_leb (nodup key_eq_dec keys).
Proof.
  unfold groupby_size. rewrite map_map. cbn [key]. apply map_id.
Qed.

(** Before the trimming of line 93 the group keys are pairwise distinct. *)
Lemma groupby_size_NoDup (keys : list (cols string)) :
  NoDup (map key (groupby_size keys)).
Proof.
  rewrite key_groupby_size.
  apply (Permutation_NoDup (l := nodup key_eq_dec keys)).
  - symmetry. apply Permutation_sorted.
  - apply NoDup_nodup.
Qed.

Lemma total_count_groupby_size (keys : list (cols string)) :
  total_count (groupby_size keys) = List.length keys.
Proof.
  rewrite total_count_list_sum. unfold groupby_size.
  rewrite map_map. cbn [count].
  rewrite (list_sum_Permutation
             (l' := map (count_occ key_eq_dec keys) (nodup key_eq_dec keys))).
  - apply list_sum_count_occ.
    + apply NoDup_nodup.
    + intros a Ha. now apply nodup_In.
  - apply Permutation_map, Permutation_sorted.
Qed.

Lemma total_count_df_cleaned (keys : list (cols string)) :
  total_count (df_cleaned keys) = List.length keys.
Proof.
  unfold df_cleaned. rewrite total_count_list_sum, map_map.
  cbn [strip_row count].
  rewrite <- total_count_list_sum. apply total_count_groupby_size.
Qed.

Lemma length_df_cleaned (keys : list (cols string)) :
  List.length (df_cleaned keys) = List.length (nodup key_eq_dec keys).
Proof.
  unfold df_cleaned, groupby_size. rewrite !length_map.
  apply Permutation_length, Permutation_sorted.
Qed.

Lemma total_count_head_tail (groups : list group_row) :
  total_count (iloc_from_1 groups) + group_size (hd_error groups)
  = total_count groups.
Proof. destruct groups; simpl; lia. Qed.

Lemma take_rows_all (A : Type) (n : Z) (l : list A) :
  (Z.of_nat (List.length l) <= n)%Z -> take_rows n l = l.
Proof.
  intros H. unfold take_rows, adjust_index.
  destruct (n <? 0)%Z eqn:E; [apply Z.ltb_lt in E; lia |].
  rewrite Z.min_r by lia. rewrite Nat2Z.id. apply firstn_all.
Qed.

Lemma truncate_keeps_all (max_rows : option Z) (keys : list (cols string)) :
  keeps_all max_rows keys ->
  truncate max_rows (iloc_from_1 (df_cleaned keys))
  = iloc_from_1 (df_cleaned keys).
Proof.
  unfold keeps_all, truncate. destruct max_rows as [n |]; [| reflexivity].
  intros [-> | H]; [reflexivity |].
  destruct (n =? 0)%Z; [reflexivity |].
  pose proof (length_df_cleaned keys) as L.
  unfold iloc_from_1.
  destruct (df_cleaned keys) as [| g rest]; cbn [tl List.length] in *.
  - unfold take_rows. now rewrite firstn_nil.
  - apply take_rows_all. lia.
Qed.

Lemma key_leb_empty_l (k : cols string) : key_leb empty_key k = true.
Proof. destruct k as [f l g]. destruct f, l, g; reflexivity. Qed.

Lemma key_leb_empty_r (k : cols string) :
  key_leb k empty_key = true -> k = empty_key.
Proof.
  destruct k as [f l g]. unfold key_leb, empty_key. cbn [FAC LOC GPE].
  destruct f; [| discriminate]. destruct l; [| discriminate].
  destruct g; [reflexivity | discriminate].
Qed.

(** The empty key sorts first wherever it occurs. *)
Lemma sorted_head_empty_key (l : list (cols string)) :
  In empty_key l -> exists t, sorted key_leb l = empty_key :: t.
Proof.
  induction l as [| a l IH]; [contradiction |].
  intros [-> | Hin]; cbn [sorted].
  - destruct (sorted key_leb l) as [| y t]; cbn [insert_sorted]; eauto.
    rewrite key_leb_empty_l. eauto.
  - destruct (IH Hin) as [t ->]. cbn [insert_sorted].
    destruct (key_leb a empty_key) eqn:E; eauto.
    apply key_leb_empty_r in E. subst. eauto.
Qed.

Lemma df_cleaned_head_empty_key (keys : list (cols string)) :
  In empty_key keys ->
  exists rest,
    df_cleaned keys
    = {| key := empty_key; count := count_occ key_eq_dec keys empty_key |}
      :: rest.
Proof.
  intros Hin. unfold df_cleaned, groupby_size.
  destruct (@sorted_head_empty_key (nodup key_eq_dec keys)) as [t ->].
  - now apply nodup_In.
  - cbn [map]. eexists. reflexivity.
Qed.

Lemma well_labelled_four_record_batch : well_labelled four_record_batch.
Proof.
  unfold well_labelled, four_record_batch, span.
  repeat (constructor;
          [cbn [label];
           repeat (constructor; [unfold int_span; eauto |]); constructor |]).
  constructor.
Qed.

(** C4 on the code. In a batch whose only record names Tampa no record
    has the key ("", "", ""); the group that sorts first, and is dropped,
    is the Tampa group, and nothing is left. *)
Lemma discarded_group_not_empty_key :
  process_entities tampa_batch default_max_rows = Ok [] /\
  exists g : group_row,
    discarded_group (keys_of tampa_batch) = Some g /\
    GPE (key g) = "Tampa" /\
    key g <> empty_key.
Proof.
  split; [reflexivity |].
  exists {| key := {| FAC := ""; LOC := ""; GPE := "Tampa" |}; count := 1 |}.
  repeat split. discriminate.
Qed.

(** C5 on the code: the groups are formed on the untrimmed strings and
    trimmed afterwards, so "Tampa" and "Tampa " come out as two groups with
    the same trimmed key. *)
Theorem trimmed_keys_repeat :
  process_entities trailing_space_batch default_max_rows
  = Ok [ {| key := {| FAC := ""; LOC := ""; GPE := "Tampa" |}; count := 1 |};
         {| key := {| FAC := ""; LOC := ""; GPE := "Tampa" |}; count := 1 |} ].
Proof. reflexivity. Qed.

Lemma process_keys_conservation (keys : list (cols string))
    (max_rows : option Z) :
  keeps_all max_rows keys ->
  total_count (process_keys keys max_rows)
  + group_size (discarded_group keys)
  = List.length keys.
Proof.
  intros Hkeep. unfold process_keys, discarded_group.
  rewrite truncate_keeps_all by assumption.
  rewrite total_count_head_tail. apply total_count_df_cleaned.
Qed.

Lemma discarded_group_empty_key (keys : list (cols string)) :
  In empty_key keys ->
  group_size (discarded_group keys) = empty_key_group_size keys.
Proof.
  intros Hin. unfold discarded_group.
  destruct (df_cleaned_head_empty_key _ Hin) as [rest ->]. reflexivity.
Qed.

(** C7, as the code has it. For a batch that has a record with the key
    ("", "", ""), so that the empty-key group is the one dropped, and on
    which [max_rows] cuts no group off, the counts of the returned groups
    and the size of the empty-key group add up to the number of input
    records. *)
Theorem grouping_conservation_with_empty_key (ner_entities : list ner_row)
    (max_rows : option Z) :
  well_labelled ner_entities ->
  In empty_key (keys_of ner_entities) ->
  keeps_all max_rows (keys_of ner_entities) ->
  exists groups : list group_row,
    process_entities ner_entities max_rows = Ok groups /\
    total_count groups + empty_key_group_size (keys_of ner_entities)
    = List.length ner_entities.
Proof.
  intros Hwl Hin Hkeep.
  exists (process_keys (keys_of ner_entities) max_rows). split.
  - apply process_entities_well_labelled; [| assumption].
    intros ->. contradiction.
  - rewrite <- discarded_group_empty_key by assumption.
    rewrite process_keys_conservation by assumption.
    unfold keys_of. apply length_map.
Qed.

Lemma grouping_conservation_with_empty_key_witness :
  exists groups : list group_row,
    process_entities four_record_batch default_max_rows = Ok groups /\
    total_count groups + empty_key_group_size (keys_of four_record_batch)
    = 4.
Proof.
  apply (@grouping_conservation_with_empty_key four_record_batch
           default_max_rows).
  - exact well_labelled_four_record_batch.
  - left. reflexivity.
  - right. vm_compute. discriminate.
Defined.

(** C7 as stated fails: with [max_rows = 2] the four records, one of
    them with the empty key, leave two groups of one record each. *)
Lemma grouping_conservation_fails_under_max_rows :
  exists groups : list group_row,
    process_entities four_record_batch (Some 2%Z) = Ok groups /\
    total_count groups + empty_key_group_size (keys_of four_record_batch)
    <> List.length four_record_batch.
Proof.
  eexists. split; [reflexivity |].
  vm_compute. discriminate.
Qed.

(* ================================================================= *)
(** ** [sorted] does not depend on the order of a set *)

Section SortedUnique.

Variable A : Type.
Variable leb : A -> A -> bool.
Hypothesis leb_total : forall a b, leb a b = true \/ leb b a = true.
Hypothesis leb_trans :
  forall a b c, leb a b = true -> leb b c = true -> leb a c = true.
Hypothesis leb_antisym :
  forall a b, leb a b = true -> leb b a = true -> a = b.

Lemma insert_sorted_StronglySorted (x : A) (l : list A) :
  StronglySorted (le_of leb) l -> StronglySorted (le_of leb) (insert_sorted leb x l).
Proof.
  induction 1 as [| y t Ht IH Hy]; cbn [insert_sorted].
  - repeat constructor.
  - destruct (leb x y) eqn:E.
    + constructor; [now constructor |].
      constructor; [exact E |].
      eapply Forall_impl; [| exact Hy].
      intros z Hz. exact (leb_trans E Hz).
    + constructor; [assumption |].
      apply Forall_insert_sorted; [| assumption].
      destruct (leb_total x y) as [H | H]; [congruence | exact H].
Qed.

Lemma sorted_StronglySorted (l : list A) :
  StronglySorted (le_of leb) (sorted leb l).
Proof.
  induction l; cbn [sorted];
    [constructor | now apply insert_sorted_StronglySorted].
Qed.

Lemma StronglySorted_unique (l1 l2 : list A) :
  StronglySorted (le_of leb) l1 -> StronglySorted (le_of leb) l2 -> Permutation l1 l2 ->
  l1 = l2.
Proof.
  intros H1. revert l2.
  induction H1 as [| x t Ht IH Hx]; intros l2 H2 HP.
  - now apply Permutation_nil in HP.
  - destruct H2 as [| y u Hu Hy].
    + symmetry in HP. now apply Permutation_nil in HP.
    + assert (E : x = y).
      { apply leb_antisym.
        - assert (Hin : In y (x :: t))
            by (apply (Permutation_in y (Permutation_sym HP)); now left).
          destruct Hin as [-> | Hin].
          + destruct (leb_total y y); assumption.
          + rewrite Forall_forall in Hx. now apply Hx.
        - assert (Hin : In x (y :: u))
            by (apply (Permutation_in x HP); now left).
          destruct Hin as [-> | Hin].
          + destruct (leb_total x x); assumption.
          + rewrite Forall_forall in Hy. now apply Hy. }
      subst y. f_equal. apply IH; [assumption |].
      now apply Permutation_cons_inv in HP.
Qed.

Lemma sorted_Permutation (l1 l2 : list A) :
  Permutation l1 l2 -> sorted leb l1 = sorted leb l2.
Proof.
  intros HP. apply StronglySorted_unique; try apply sorted_StronglySorted.
  rewrite !Permutation_sorted. exact HP.
Qed.

End SortedUnique.

Lemma ascii_compare_N (x y : ascii) :
  Ascii.compare x y = N.compare (N_of_ascii x) (N_of_ascii y).
Proof. reflexivity. Qed.

Lemma string_leb_trans (a b c : string) :
  String.leb a b = true -> String.leb b c = true -> String.leb a c = true.
Proof.
  unfold String.leb. revert b c.
  induction a as [| x a IH]; intros [| y b] [| z c]; cbn [String.compare];
    try (reflexivity || discriminate).
  rewrite !ascii_compare_N.
  destruct (N.compare_spec (N_of_ascii x) (N_of_ascii y)) as [Exy | Lxy | Gxy];
    destruct (N.compare_spec (N_of_ascii y) (N_of_ascii z)) as [Eyz | Lyz | Gyz];
    try discriminate;
    destruct (N.compare_spec (N_of_ascii x) (N_of_ascii z)) as [Exz | Lxz | Gxz];
    try reflexivity; try lia; intros; try (exfalso; lia).
  now apply IH with b.
Qed.

(** The string of a set is the same in whatever order Python lists the
    set. *)
Lemma canonicalize_Permutation (x y : list string) :
  Permutation x y -> canonicalize x = canonicalize y.
Proof.
  intros HP. unfold canonicalize, join_sorted.
  now rewrite (@sorted_Permutation _ String.leb String.leb_total
                 string_leb_trans String.leb_antisym _ _ HP).
Qed.

(* ================================================================= *)
(** ** Geocoding *)

Section GeocodeProofs.

Variable coord : Type.
Variable polygon : Type.
Variable service : Type.
Variable service_geocode :
  service -> string -> Z -> result (option (coord * coord)) * service.

Hypothesis contract : only_times_out service_geocode.

(** One call of [geocode_address]: one lookup, with timeout 10, and a
    pair of cells whatever the service answers. *)
Lemma geocode_address_run (row : group_row) (w : world polygon service) :
  geocode_address service_geocode row w
  = (Ok (coordinates_of
           (fst (service_geocode (geolocator w) (address_of row) 10%Z))),
     {| geolocator :=
          snd (service_geocode (geolocator w) (address_of row) 10%Z);
        files := files w;
        trace := trace w ++ [Geocode (address_of row) 10] |}).
Proof.
  unfold geocode_address, try_except, geolocator_geocode, emit.
  cbn [bind ret M_Monad].
  pose proof (contract (geolocator w) (address_of row) 10%Z) as Hc.
  destruct (service_geocode (geolocator w) (address_of row) 10%Z)
    as [r s] eqn:E.
  cbn [fst snd geolocator files trace] in *.
  destruct r as [[[latitude longitude] |] | e]; try reflexivity.
  rewrite (Hc e eq_refl).
  destruct (pyexn_eq_dec GeocoderTimedOut GeocoderTimedOut);
    [reflexivity | congruence].
Qed.

Lemma map_rows_geocode_address (data : list group_row) (w : world polygon service) :
  map_rows (geocode_address service_geocode) data w
  = (Ok (map (@coordinates_of coord)
             (lookups service_geocode (geolocator w) data)),
     {| geolocator := service_after service_geocode (geolocator w) data;
        files := files w;
        trace := trace w
                 ++ map (fun g => Geocode (address_of g) 10) data |}).
Proof.
  revert w. induction data as [| g rest IH]; intros w.
  - cbn. rewrite app_nil_r. now destruct w.
  - cbn [map_rows bind M_Monad]. rewrite geocode_address_run.
    rewrite IH. cbn [ret M_Monad geolocator files trace lookups map
                     service_after].
    now rewrite <- app_assoc.
Qed.

Lemma dropna_resolved (data : list group_row)
    (rs : list (result (option (coord * coord)))) :
  dropna (set_coordinates data (map (@coordinates_of coord) rs))
  = filter_map (@resolved coord) (combine data rs).
Proof.
  unfold set_coordinates, dropna.
  revert rs. induction data as [| g rest IH]; intros [| r rs];
    try reflexivity.
  cbn [map combine filter filter_map]. unfold resolved at 1.
  cbn [fst snd Latitude Longitude].
  destruct r as [[[latitude longitude] |] | e];
    cbn [coordinates_of fst snd isna orb negb]; now rewrite IH.
Qed.

Lemma filter_map_resolved_present (grs : list (group_row * _)) :
  Forall (fun r : geocoded_row coord =>
            isna (Latitude r) = false /\ isna (Longitude r) = false)
         (filter_map (@resolved coord) grs).
Proof.
  induction grs as [| [g r] grs IH]; cbn [filter_map]; [constructor |].
  unfold resolved. cbn [fst snd].
  destruct r as [[[latitude longitude] |] | e]; try assumption.
  constructor; [now split | assumption].
Qed.

(** C8. Every group is looked up exactly once, with the bounded wait of
    10, in order; the frame that is returned holds exactly the groups
    whose lookup found a location, so a group whose lookup timed out or
    found nothing is not in it, and no returned row has a missing
    coordinate. *)
Theorem geocode_data_excludes_unresolved (data : list group_row)
    (w : world polygon service) :
  data <> [] ->
  exists (df : list (geocoded_row coord)) (w' : world polygon service),
    geocode_data service_geocode data w = (Ok df, w') /\
    trace w' = trace w ++ map (fun g => Geocode (address_of g) 10) data /\
    df = filter_map (@resolved coord)
           (combine data (lookups service_geocode (geolocator w) data)) /\
    Forall (fun r => isna (Latitude r) = false /\ isna (Longitude r) = false)
           df.
Proof.
  intros Hne. unfold geocode_data, apply_rows.
  destruct data as [| g rest]; [contradiction |].
  cbn [bind M_Monad]. rewrite map_rows_geocode_address.
  cbn [ret M_Monad]. do 2 eexists. split; [reflexivity |].
  cbn [trace]. split; [reflexivity |].
  rewrite dropna_resolved. split; [reflexivity |].
  apply filter_map_resolved_present.
Qed.

End GeocodeProofs.

Lemma sample_geocode_contract : only_times_out sample_geocode.
Proof.
  intros s address timeout e. unfold sample_geocode. cbn [fst].
  destruct (String.eqb address ", , Tampa"); [discriminate |].
  destruct (String.eqb address ", , Miami"); [| discriminate].
  congruence.
Qed.

Lemma geocode_data_excludes_unresolved_witness :
  exists (df : list (geocoded_row Z)) (w' : world string nat),
    geocode_data sample_geocode sample_groups sample_world = (Ok df, w') /\
    trace w' = [ Geocode ", , Miami" 10; Geocode ", , Tampa" 10;
                 Geocode ", , Atlantis" 10 ] /\
    df = [ {| group := group_of "Tampa" 3; Latitude := Float 27%Z;
              Longitude := Float (-82)%Z |} ] /\
    Forall (fun r => isna (Latitude r) = false /\ isna (Longitude r) = false)
           df.
Proof.
  apply (@geocode_data_excludes_unresolved Z string nat sample_geocode
           sample_geocode_contract sample_groups sample_world).
  discriminate.
Defined.

(* ================================================================= *)
(** ** The spatial join *)

Section SpatialProofs.

Variable coord : Type.
Variable polygon : Type.
Variable within : coord -> coord -> polygon -> bool.
Variable to_crs : string -> string -> polygon -> polygon.
Variable service : Type.

(** C10. With an empty list of target states nothing is filtered: the
    call returns every row of the frame, its attributes as they were and
    its point built from longitude and latitude, and leaves the world as
    it found it (no file is read, and a missing boundary file does not
    matter), exactly as with no target states at all. *)
Theorem empty_target_states_no_filter (self : processor)
    (df : list (geocoded_row coord)) (w : world polygon service) :
  create_geodataframe within to_crs self df (Some []) w
  = (Ok (map (fun r => {| attrs := r;
                          geometry :=
                            Some (Point (Longitude r) (Latitude r)) |})
             df),
     w) /\
  create_geodataframe within to_crs self df (Some []) w
  = create_geodataframe within to_crs self df None w.
Proof. split; reflexivity. Qed.

(** With a target state the boundary file is read, and must exist. *)
Lemma target_states_read_boundaries (self : processor)
    (df : list (geocoded_row coord)) (state : string)
    (states : list string) (w : world polygon service) :
  trace (snd (create_geodataframe within to_crs self df
                (Some (state :: states)) w))
  = trace w ++ [ReadFile (shapefile_path self)] /\
  (files w (shapefile_path self) = None ->
   fst (create_geodataframe within to_crs self df
          (Some (state :: states)) w)
   = Raise DataSourceError).
Proof.
  unfold create_geodataframe, read_file.
  cbn [truthy bind M_Monad ret].
  destruct (files w (shapefile_path self)); split;
    (reflexivity || discriminate).
Qed.

(* --------------------------------------------------------------- *)
(** *** State polygons *)

Lemma existsb_eqb_In (x : string) (l : list string) :
  existsb (String.eqb x) l = true <-> In x l.
Proof.
  rewrite existsb_exists. split.
  - intros (y & Hy & E). apply String.eqb_eq in E. now subst.
  - intros H. exists x. split; [assumption | apply String.eqb_refl].
Qed.

(** The flag is raised exactly for the keys without facility and
    location whose GPE, lower-cased and stripped, is one of the fifty
    lower-cased state names. *)
Lemma make_polygon_of_spec (row : spatial_row coord polygon) :
  make_polygon_of row = 1%Z
  <-> FAC (key (group (attrs row))) = "" /\
      LOC (key (group (attrs row))) = "" /\
      In (strip is_space (lower (GPE_of row))) us_states_lower.
Proof.
  unfold make_polygon_of, contains_us_state_exact, GPE_of.
  destruct (String.eqb_spec (FAC (key (group (attrs row)))) "") as [-> | HF];
    cbn [andb].
  2: { split; [discriminate | intros [H _]; contradiction]. }
  destruct (String.eqb_spec (LOC (key (group (attrs row)))) "") as [-> | HL];
    cbn [andb].
  2: { split; [discriminate | intros (_ & H & _); contradiction]. }
  destruct (existsb _ us_states_lower) eqn:E.
  - apply existsb_eqb_In in E. tauto.
  - split; [discriminate |]. intros (_ & _ & H).
    apply existsb_eqb_In in H. congruence.
Qed.

(** A row whose flag is not raised gets no polygon: its cell in the new
    column [geometry] is missing, and its point stays in
    [geometry_x]. *)
Lemma assign_geometry_unflagged (r : merged_row coord polygon) :
  make_polygon r <> 1%Z ->
  s_geometry (assign_geometry r) = None /\
  s_geometry_x (assign_geometry r) = geometry_x r.
Proof.
  intros H. unfold assign_geometry. cbn [s_geometry s_geometry_x].
  destruct (Z.eqb_spec (make_polygon r) 1); [contradiction | now split].
Qed.

(** A flagged row gets whatever the merge found: the polygon, or a
    missing cell. *)
Lemma assign_geometry_flagged (r : merged_row coord polygon) :
  make_polygon r = 1%Z ->
  s_geometry (assign_geometry r) = geometry_y r.
Proof.
  intros H. unfold assign_geometry. cbn [s_geometry].
  now rewrite H.
Qed.

(** A row without a boundary of its name comes out of the merge once,
    with the right-hand columns missing. *)
Lemma merge_left_unmatched (l : spatial_row coord polygon) (flag : Z)
    (cultural : list (boundary_row polygon)) :
  Forall (fun r => name r <> strip is_space (lower (GPE_of l))) cultural ->
  merge_left [(l, flag)] cultural
  = [ {| m_attrs := attrs l; geometry_x := geometry l;
         make_polygon := flag;
         GPE_lower := strip is_space (lower (GPE_of l));
         name_right := None; geometry_y := None |} ].
Proof.
  intros H. unfold merge_left. cbn [flat_map fst snd].
  replace (filter _ cultural) with (@nil (boundary_row polygon));
    [reflexivity |].
  symmetry. induction H as [| r rest Hr _ IH]; [reflexivity |].
  cbn [filter]. rewrite IH.
  destruct (String.eqb_spec (strip is_space (lower (GPE_of l))) (name r));
    [congruence | reflexivity].
Qed.

End SpatialProofs.

Example panhandle_not_a_state :
  contains_us_state_exact "Florida Panhandle" = false /\
  contains_us_state_exact " FLORIDA " = true.
Proof. split; reflexivity. Qed.

(** C1 on the code. Of the two records ("", "", "Florida Panhandle") and
    ("", "", "Florida"), only the second is flagged and gets the Florida
    polygon; the first, unflagged, comes out with a missing cell in the
    column [geometry], its point left in [geometry_x]. *)
Theorem unflagged_record_loses_geometry :
  fst (add_state_polygons {| shapefile_path := "states.shp" |}
         panhandle_gdf sample_world)
  = Ok [ {| s_attrs := attrs (point_row "Florida Panhandle" 30 (-86));
            s_geometry_x := Some (Point (Float (-86)%Z) (Float 30%Z));
            s_make_polygon := 0;
            s_geometry := None |};
         {| s_attrs := attrs (point_row "Florida" 28 (-82));
            s_geometry_x := Some (Point (Float (-82)%Z) (Float 28%Z));
            s_make_polygon := 1;
            s_geometry := Some (Polygon "FL outline") |} ].
Proof. reflexivity. Qed.

(** The export keeps the column [geometry] and drops [geometry_x]: the
    unflagged record is written without a geometry. *)
Example panhandle_exported_without_geometry :
  option_map (map (@e_geometry Z string))
    (match fst (add_state_polygons {| shapefile_path := "states.shp" |}
                  panhandle_gdf sample_world) with
     | Ok gdf => Some (clean_geometry gdf)
     | Raise _ => None
     end)
  = Some [ None; Some (Polygon "FL outline") ].
Proof. reflexivity. Qed.

(** C2 on the code. A flagged record whose state has no boundary of that
    name comes out with a missing cell in the column [geometry]. *)
Theorem unmatched_state_loses_geometry :
  fst (add_state_polygons {| shapefile_path := "georgia.shp" |}
         florida_gdf sample_world)
  = Ok [ {| s_attrs := attrs (point_row "Florida" 28 (-82));
            s_geometry_x := Some (Point (Float (-82)%Z) (Float 28%Z));
            s_make_polygon := 1;
            s_geometry := None |} ].
Proof. reflexivity. Qed.

(* ================================================================= *)
(** ** More on span extraction *)

Lemma Forall_filter_keep (A : Type) (P : A -> Prop) (f : A -> bool)
    (l : list A) :
  Forall P l -> Forall P (filter f l).
Proof.
  rewrite !Forall_forall. intros H x Hx.
  apply filter_In in Hx. now apply H.
Qed.

Lemma filter_filter_implied (A : Type) (f g : A -> bool) (l : list A) :
  (forall x, f x = true -> g x = true) ->
  filter f (filter g l) = filter f l.
Proof.
  intros H. induction l as [| x l IH]; [reflexivity |].
  cbn [filter]. destruct (g x) eqn:G.
  - cbn [filter]. now rewrite IH.
  - destruct (f x) eqn:F; [| exact IH].
    apply H in F. congruence.
Qed.

Lemma texts_of_type_recognized (ty : string) (txt : string)
    (spans : list pyval) :
  (forall v, span_has_type ty v = true -> recognized v = true) ->
  texts_of_type ty {| text := txt; label := filter recognized spans |}
  = texts_of_type ty {| text := txt; label := spans |}.
Proof.
  intros H. unfold texts_of_type. cbn [text label].
  now rewrite filter_filter_implied.
Qed.

(** Spans of a type other than FAC, LOC and GPE change nothing: the
    result is the one of the label without them. *)
Theorem unrecognized_types_ignored (row : ner_row) :
  Forall int_span (label row) ->
  extract_entities_by_type row
  = extract_entities_by_type
      {| text := text row; label := filter recognized (label row) |}.
Proof.
  intros H.
  rewrite (extract_entities_int_spans row H).
  rewrite extract_entities_int_spans
    by (cbn [label]; now apply Forall_filter_keep).
  unfold entities_of. destruct row as [txt spans]. cbn [text label].
  rewrite !texts_of_type_recognized; [reflexivity | | |];
    intros v Hv; unfold recognized; rewrite Hv;
    repeat rewrite orb_true_r; reflexivity.
Qed.

Lemma int_span_mixed_row : Forall int_span (label mixed_row).
Proof.
  unfold mixed_row, span; cbn [label].
  repeat (constructor; [unfold int_span; eauto |]). constructor.
Qed.

Lemma unrecognized_types_ignored_witness :
  extract_entities_by_type mixed_row
  = extract_entities_by_type
      {| text := "Storm near Tampa Bay";
         label := [ span 11 16 "GPE"; span 11 20 "LOC" ] |}.
Proof.
  exact (unrecognized_types_ignored mixed_row int_span_mixed_row).
Defined.

Lemma length_filter_types (spans : list pyval) :
  List.length (filter (span_has_type "FAC") spans)
  + List.length (filter (span_has_type "LOC") spans)
  + List.length (filter (span_has_type "GPE") spans)
  = List.length (filter recognized spans).
Proof.
  induction spans as [| v spans IH]; [reflexivity |].
  cbn [filter]. unfold recognized at 1.
  assert (X : forall a b, a <> b -> span_has_type a v = true ->
                          span_has_type b v = false).
  { intros a b Hab. unfold span_has_type.
    destruct v as [| | | | | items]; try discriminate.
    destruct items as [| x [| y [| z [| ? ?]]]]; try discriminate.
    now apply eq_str_exclusive. }
  destruct (span_has_type "FAC" v) eqn:F.
  { rewrite (X "FAC" "LOC" ltac:(discriminate) F).
    rewrite (X "FAC" "GPE" ltac:(discriminate) F).
    cbn [orb List.length]. lia. }
  destruct (span_has_type "LOC" v) eqn:L.
  { rewrite (X "LOC" "GPE" ltac:(discriminate) L).
    cbn [orb List.length]. lia. }
  destruct (span_has_type "GPE" v) eqn:G; cbn [orb List.length]; lia.
Qed.

Lemma length_filter_le (A : Type) (f : A -> bool) (l : list A) :
  List.length (filter f l) <= List.length l.
Proof.
  induction l as [| x l IH]; [constructor |].
  cbn [filter]. destruct (f x); cbn [List.length]; lia.
Qed.

(** The three lists hold one text for every span of a recognized type,
    and so never more texts than the label has spans. *)
Theorem extract_entities_one_per_span (row : ner_row) :
  Forall int_span (label row) ->
  exists e : extracted,
    extract_entities_by_type row = Ok e /\
    List.length (FAC e) + List.length (LOC e) + List.length (GPE e)
    = List.length (filter recognized (label row)) /\
    List.length (FAC e) + List.length (LOC e) + List.length (GPE e)
    <= List.length (label row).
Proof.
  intros H. exists (entities_of row).
  split; [now apply extract_entities_int_spans |].
  assert (E : List.length (FAC (entities_of row))
              + List.length (LOC (entities_of row))
              + List.length (GPE (entities_of row))
              = List.length (filter recognized (label row))).
  { unfold entities_of, texts_of_type. cbn [FAC LOC GPE].
    rewrite !length_map. apply length_filter_types. }
  split; [exact E |]. rewrite E. apply length_filter_le.
Qed.

Lemma extract_entities_one_per_span_witness :
  exists e : extracted,
    extract_entities_by_type mixed_row = Ok e /\
    List.length (FAC e) + List.length (LOC e) + List.length (GPE e) = 2 /\
    List.length (FAC e) + List.length (LOC e) + List.length (GPE e) <= 3.
Proof.
  exact (extract_entities_one_per_span mixed_row int_span_mixed_row).
Defined.

Lemma length_substring (n m : nat) (s : string) :
  String.length (substring n m s) = Nat.min m (String.length s - n).
Proof.
  revert n m. induction s as [| c s IH]; intros n m.
  - destruct n, m; reflexivity.
  - destruct n as [| n].
    + destruct m as [| m]; [reflexivity |].
      cbn [substring String.length]. rewrite IH. cbn. now rewrite Nat.sub_0_r.
    + cbn [substring String.length]. rewrite IH. reflexivity.
Qed.

(** A span that lies inside the text yields exactly its [end - start]
    characters. *)
Theorem slice_length_in_range (txt : string) (start end_ : Z) :
  (0 <= start <= end_)%Z ->
  (end_ <= Z.of_nat (String.length txt))%Z ->
  Z.of_nat (String.length (slice txt (Some start) (Some end_)))
  = (end_ - start)%Z.
Proof.
  intros H1 H2. unfold slice. rewrite length_substring.
  rewrite !adjust_index_in_range by lia. lia.
Qed.

Lemma slice_length_in_range_witness :
  Z.of_nat (String.length (slice "Port of Tampa" (Some 8%Z) (Some 13%Z)))
  = 5%Z.
Proof.
  apply (@slice_length_in_range "Port of Tampa" 8 13); cbn; lia.
Defined.

Lemma extract_loop_step (txt : string) (item : pyval) :
  int_span item ->
  forall fac loc gpe, exists fac' loc' gpe',
    forall rest,
      extract_loop txt (item :: rest) fac loc gpe
      = extract_loop txt rest fac' loc' gpe'.
Proof.
  intros (s & e & ty & ->) fac loc gpe.
  cbn [extract_loop unpack3 bind result_Monad getitem_slice slice_bound ret].
  destruct (eq_str ty "FAC"); [eauto |].
  destruct (eq_str ty "LOC"); [eauto |].
  destruct (eq_str ty "GPE"); eauto.
Qed.

Lemma extract_loop_raises (txt : string) (pre : list pyval) (item : pyval)
    (post : list pyval) (e : pyexn) :
  Forall int_span pre ->
  (forall rest fac loc gpe,
      extract_loop txt (item :: rest) fac loc gpe = Raise e) ->
  forall fac loc gpe,
    extract_loop txt (pre ++ item :: post) fac loc gpe = Raise e.
Proof.
  intros Hpre Hitem.
  induction Hpre as [| v pre Hv _ IH]; intros fac loc gpe.
  - apply Hitem.
  - destruct (extract_loop_step txt Hv fac loc gpe)
      as (fac' & loc' & gpe' & Hstep).
    cbn [app]. rewrite Hstep. apply IH.
Qed.

(** A label item that is not a triple makes the extraction of the whole
    record fail with [ValueError], wherever it stands among well-formed
    spans. *)
Theorem extract_entities_short_item (txt : string) (pre : list pyval)
    (items : list pyval) (post : list pyval) :
  Forall int_span pre ->
  List.length items <> 3 ->
  extract_entities_by_type
    {| text := txt; label := pre ++ PList items :: post |}
  = Raise ValueError.
Proof.
  intros Hpre Hlen. unfold extract_entities_by_type. cbn [text label].
  apply extract_loop_raises; [assumption |].
  intros rest fac loc gpe. cbn [extract_loop].
  destruct items as [| a [| b [| c [| d more]]]]; try reflexivity.
  now contradiction Hlen.
Qed.

Lemma extract_entities_short_item_witness :
  extract_entities_by_type short_item_row = Raise ValueError.
Proof.
  apply (@extract_entities_short_item "Tampa" [span 0 5 "GPE"]
           [PInt 0; PInt 5] [span 0 5 "LOC"]).
  - repeat constructor. unfold int_span, span. eauto.
  - cbn. lia.
Defined.

(** A triple with a bound that is no integer (a string, a float, a list)
    makes the extraction of the whole record fail with [TypeError]. *)
Theorem extract_entities_bad_bound (txt : string) (pre : list pyval)
    (start end_ entity_type : pyval) (post : list pyval) :
  Forall int_span pre ->
  not_a_bound start \/ not_a_bound end_ ->
  extract_entities_by_type
    {| text := txt;
       label := pre ++ PList [start; end_; entity_type] :: post |}
  = Raise TypeError.
Proof.
  intros Hpre Hbad. unfold extract_entities_by_type. cbn [text label].
  apply extract_loop_raises; [assumption |].
  intros rest fac loc gpe.
  cbn [extract_loop unpack3 bind result_Monad getitem_slice].
  destruct Hbad as [Hbad | Hbad].
  - destruct start; try contradiction; reflexivity.
  - destruct end_; try contradiction;
      destruct start; reflexivity.
Qed.

Lemma extract_entities_bad_bound_witness :
  extract_entities_by_type string_bound_row = Raise TypeError.
Proof.
  apply (@extract_entities_bad_bound "Tampa" [span 0 5 "GPE"]
           (PStr "0") (PInt 5) (PStr "GPE") []).
  - repeat constructor. unfold int_span, span. eauto.
  - left. exact I.
Defined.

(* ================================================================= *)
(** ** More on the aggregation *)

Lemma py_set_same_set (a b : list string) :
  same_set a b -> Permutation (py_set a) (py_set b).
Proof.
  intros H. unfold py_set.
  apply NoDup_Permutation; try apply NoDup_nodup.
  intros x. rewrite !nodup_In. apply H.
Qed.

Lemma remove_duplicates_same_set (a1 l1 a2 l2 : list string) :
  same_set a1 a2 -> same_set l1 l2 ->
  Permutation
    (filter (fun entity => not_in entity (py_set l1)) (py_set a1))
    (filter (fun entity => not_in entity (py_set l2)) (py_set a2)).
Proof.
  intros Ha Hl. unfold py_set.
  apply NoDup_Permutation; try (apply NoDup_filter, NoDup_nodup).
  intros x. rewrite !filter_In, !not_in_spec, !nodup_In.
  rewrite (Ha x), (Hl x). reflexivity.
Qed.

(** The key of a record depends on which entity texts it has of each
    type, not on their order or on how often each is mentioned. *)
Theorem canonical_key_same_sets (e1 e2 : extracted) :
  same_set (FAC e1) (FAC e2) ->
  same_set (LOC e1) (LOC e2) ->
  same_set (GPE e1) (GPE e2) ->
  canonical_key e1 = canonical_key e2.
Proof.
  intros HF HL HG. rewrite !canonical_key_columns. f_equal.
  - apply canonicalize_Permutation. now apply remove_duplicates_same_set.
  - apply canonicalize_Permutation. now apply py_set_same_set.
  - apply canonicalize_Permutation. now apply py_set_same_set.
Qed.

Lemma canonical_key_same_sets_witness :
  canonical_key mentions_a = canonical_key mentions_b.
Proof.
  apply canonical_key_same_sets; intros s; cbn; tauto.
Defined.

(* ----------------------------------------------------------------- *)
(** *** Where the returned rows come from *)

Lemma In_firstn_In (A : Type) (n : nat) (l : list A) (x : A) :
  In x (firstn n l) -> In x l.
Proof.
  revert l. induction n as [| n IH]; intros [| y l]; cbn; try tauto.
  intros [H | H]; [now left | right; now apply IH].
Qed.

Lemma In_truncate (A : Type) (max_rows : option Z) (l : list A) (x : A) :
  In x (truncate max_rows l) -> In x l.
Proof.
  unfold truncate, take_rows. destruct max_rows as [n |]; [| trivial].
  destruct (n =? 0)%Z; [trivial | apply In_firstn_In].
Qed.

Lemma In_tl (A : Type) (l : list A) (x : A) : In x (tl l) -> In x l.
Proof. destruct l; cbn; tauto. Qed.

Lemma In_groupby_size (keys : list (cols string)) (g : group_row) :
  In g (groupby_size keys) <->
  In (key g) keys /\ count g = count_occ key_eq_dec keys (key g).
Proof.
  unfold groupby_size. rewrite in_map_iff. split.
  - intros (k & <- & Hk). cbn [key count]. split; [| reflexivity].
    apply (Permutation_in _ (Permutation_sorted key_leb _)) in Hk.
    now apply nodup_In in Hk.
  - intros [Hk Hc]. exists (key g). split.
    + destruct g as [k c]. cbn [key count] in *. now subst.
    + apply (Permutation_in _ (Permutation_sym (Permutation_sorted key_leb _))).
      now apply nodup_In.
Qed.

Lemma In_process_keys (keys : list (cols string)) (max_rows : option Z)
    (g : group_row) :
  In g (process_keys keys max_rows) ->
  exists k, In k keys /\
            key g = map_cols (strip (in_chars " ,")) k /\
            count g = count_occ key_eq_dec keys k.
Proof.
  unfold process_keys, iloc_from_1, df_cleaned. intros H.
  apply In_truncate, In_tl, in_map_iff in H.
  destruct H as (g0 & <- & Hg0). apply In_groupby_size in Hg0.
  exists (key g0). cbn [strip_row key count]. tauto.
Qed.

(** Every returned row stands for a key that occurs in the batch, and its
    count is the number of records with that key, at least one. *)
Theorem process_entities_counts (ner_entities : list ner_row)
    (max_rows : option Z) :
  ner_entities <> [] ->
  well_labelled ner_entities ->
  exists groups : list group_row,
    process_entities ner_entities max_rows = Ok groups /\
    Forall (fun g =>
              exists k, In k (keys_of ner_entities) /\
                key g = map_cols (strip (in_chars " ,")) k /\
                count g = count_occ key_eq_dec (keys_of ner_entities) k /\
                1 <= count g)
           groups.
Proof.
  intros Hne Hwl. eexists. split.
  - now apply process_entities_well_labelled.
  - apply Forall_forall. intros g Hg.
    apply In_process_keys in Hg. destruct Hg as (k & Hk & Hkey & Hc).
    exists k. repeat split; trivial.
    rewrite Hc. now apply (count_occ_In key_eq_dec).
Qed.

Lemma process_entities_counts_witness :
  exists groups : list group_row,
    process_entities four_record_batch default_max_rows = Ok groups /\
    Forall (fun g =>
              exists k, In k (keys_of four_record_batch) /\
                key g = map_cols (strip (in_chars " ,")) k /\
                count g = count_occ key_eq_dec (keys_of four_record_batch) k /\
                1 <= count g)
           groups.
Proof.
  apply (@process_entities_counts four_record_batch default_max_rows).
  - discriminate.
  - exact well_labelled_four_record_batch.
Defined.

(* ----------------------------------------------------------------- *)
(** *** Hash marks and trimming *)

Lemma remove_char_no_char (c : ascii) (s : string) :
  ~ has_char c (remove_char c s).
Proof.
  unfold has_char. induction s as [| x s IH]; cbn; [tauto |].
  destruct (Ascii.eqb_spec x c) as [-> | Hxc]; [exact IH |].
  cbn. intros [H | H]; [congruence | contradiction].
Qed.

Lemma has_char_lstrip (p : ascii -> bool) (c : ascii) (s : string) :
  has_char c (lstrip p s) -> has_char c s.
Proof.
  unfold has_char. induction s as [| x s IH]; cbn; [tauto |].
  destruct (p x); cbn; [right; now apply IH | tauto].
Qed.

Lemma has_char_rstrip (p : ascii -> bool) (c : ascii) (s : string) :
  has_char c (rstrip p s) -> has_char c s.
Proof.
  unfold has_char. induction s as [| x s IH]; cbn [rstrip]; [tauto |].
  destruct (rstrip p s) as [| y r] eqn:E.
  - destruct (p x); cbn; tauto.
  - cbn [list_ascii_of_string]. intros [H | H]; [now left |].
    right. now apply IH.
Qed.

Lemma has_char_strip (p : ascii -> bool) (c : ascii) (s : string) :
  has_char c (strip p s) -> has_char c s.
Proof.
  unfold strip. intros H. now apply has_char_rstrip, has_char_lstrip in H.
Qed.

Lemma canonical_key_no_hash (e : extracted) :
  all_cols (fun s => ~ has_char "#" s) (canonical_key e).
Proof.
  unfold canonical_key, all_cols, map_cols. cbn [FAC LOC GPE].
  repeat split; apply remove_char_no_char.
Qed.

(** No column of a returned row contains a hash mark. *)
Theorem process_entities_no_hash (ner_entities : list ner_row)
    (max_rows : option Z) :
  ner_entities <> [] ->
  well_labelled ner_entities ->
  exists groups : list group_row,
    process_entities ner_entities max_rows = Ok groups /\
    Forall (fun g => all_cols (fun s => ~ has_char "#" s) (key g)) groups.
Proof.
  intros Hne Hwl. eexists. split.
  - now apply process_entities_well_labelled.
  - apply Forall_forall. intros g Hg.
    apply In_process_keys in Hg. destruct Hg as (k & Hk & Hkey & _).
    unfold keys_of in Hk. apply in_map_iff in Hk.
    destruct Hk as (row & <- & _).
    destruct (canonical_key_no_hash (entities_of row)) as (HF & HL & HG).
    rewrite Hkey. unfold all_cols, map_cols. cbn [FAC LOC GPE].
    repeat split; intros H; apply has_char_strip in H; contradiction.
Qed.

Lemma process_entities_no_hash_witness :
  exists groups : list group_row,
    process_entities four_record_batch default_max_rows = Ok groups /\
    Forall (fun g => all_cols (fun s => ~ has_char "#" s) (key g)) groups.
Proof.
  apply (@process_entities_no_hash four_record_batch default_max_rows).
  - discriminate.
  - exact well_labelled_four_record_batch.
Defined.

Lemma first_char_lstrip (p : ascii -> bool) (s : string) (c : ascii) :
  first_char (lstrip p s) = Some c -> p c = false.
Proof.
  induction s as [| x s IH]; cbn [lstrip]; [discriminate |].
  destruct (p x) eqn:E; [exact IH |].
  cbn. intros [= <-]. exact E.
Qed.

Lemma first_char_rstrip (p : ascii -> bool) (s : string) (c : ascii) :
  first_char (rstrip p s) = Some c -> first_char s = Some c.
Proof.
  destruct s as [| x s]; cbn [rstrip]; [discriminate |].
  destruct (rstrip p s); [destruct (p x); [discriminate |] |]; cbn; trivial.
Qed.

Lemma last_char_rstrip (p : ascii -> bool) (s : string) (c : ascii) :
  last_char (rstrip p s) = Some c -> p c = false.
Proof.
  induction s as [| x s IH]; cbn [rstrip]; [discriminate |].
  destruct (rstrip p s) as [| y r] eqn:E.
  - destruct (p x) eqn:P; [discriminate |].
    cbn. intros [= <-]. exact P.
  - cbn [last_char]. exact IH.
Qed.

Lemma strip_trimmed (p : ascii -> bool) (s : string) : trimmed p (strip p s).
Proof.
  unfold trimmed, strip. split; intros c H.
  - apply first_char_rstrip in H. now apply first_char_lstrip in H.
  - now apply last_char_rstrip in H.
Qed.

(** No column of a returned row starts or ends with a space or a
    comma. *)
Theorem process_entities_trimmed (ner_entities : list ner_row)
    (max_rows : option Z) :
  ner_entities <> [] ->
  well_labelled ner_entities ->
  exists groups : list group_row,
    process_entities ner_entities max_rows = Ok groups /\
    Forall (fun g => all_cols (trimmed (in_chars " ,")) (key g)) groups.
Proof.
  intros Hne Hwl. eexists. split.
  - now apply process_entities_well_labelled.
  - apply Forall_forall. intros g Hg.
    apply In_process_keys in Hg. destruct Hg as (k & _ & Hkey & _).
    rewrite Hkey. unfold all_cols, map_cols. cbn [FAC LOC GPE].
    repeat split; apply strip_trimmed.
Qed.

Lemma process_entities_trimmed_witness :
  exists groups : list group_row,
    process_entities trailing_space_batch default_max_rows = Ok groups /\
    Forall (fun g => all_cols (trimmed (in_chars " ,")) (key g)) groups.
Proof.
  apply (@process_entities_trimmed trailing_space_batch default_max_rows).
  - discriminate.
  - unfold well_labelled, trailing_space_batch, span.
    repeat (constructor;
            [cbn [label];
             repeat (constructor; [unfold int_span; eauto |]); constructor |]).
    constructor.
Defined.

(* ================================================================= *)
(** ** The order and the number of the groups *)

Lemma string_compare_refl (s : string) : String.compare s s = Eq.
Proof.
  induction s as [| x s IH]; [reflexivity |].
  cbn [String.compare]. rewrite ascii_compare_N, N.compare_refl. exact IH.
Qed.

Lemma string_compare_lt_trans (a b c : string) :
  String.compare a b = Lt -> String.compare b c = Lt ->
  String.compare a c = Lt.
Proof.
  revert b c.
  induction a as [| x a IH]; intros [| y b] [| z c]; cbn [String.compare];
    try (reflexivity || discriminate).
  rewrite !ascii_compare_N.
  destruct (N.compare_spec (N_of_ascii x) (N_of_ascii y)) as [Exy | Lxy | Gxy];
    destruct (N.compare_spec (N_of_ascii y) (N_of_ascii z)) as [Eyz | Lyz | Gyz];
    try discriminate;
    destruct (N.compare_spec (N_of_ascii x) (N_of_ascii z)) as [Exz | Lxz | Gxz];
    try reflexivity; try lia; intros; try (exfalso; lia).
  now apply IH with b.
Qed.

Lemma key_leb_spec (a b : cols string) :
  key_leb a b = true <->
  String.compare (FAC a) (FAC b) = Lt \/
  (FAC a = FAC b /\
   (String.compare (LOC a) (LOC b) = Lt \/
    (LOC a = LOC b /\ String.leb (GPE a) (GPE b) = true))).
Proof.
  unfold key_leb. split.
  - destruct (String.compare (FAC a) (FAC b)) eqn:EF;
      [| now left | discriminate].
    apply String.compare_eq_iff in EF. intros H. right. split; [exact EF |].
    destruct (String.compare (LOC a) (LOC b)) eqn:EL;
      [| now left | discriminate].
    apply String.compare_eq_iff in EL. now right.
  - intros [H | [EF [H | [EL H]]]].
    + now rewrite H.
    + now rewrite EF, string_compare_refl, H.
    + now rewrite EF, EL, !string_compare_refl.
Qed.

Lemma key_leb_trans (a b c : cols string) :
  key_leb a b = true -> key_leb b c = true -> key_leb a c = true.
Proof.
  rewrite !key_leb_spec.
  intros [Fab | [Fab [Lab | [Lab Gab]]]] [Fbc | [Fbc [Lbc | [Lbc Gbc]]]].
  - left. eapply string_compare_lt_trans; eassumption.
  - left. now rewrite <- Fbc.
  - left. now rewrite <- Fbc.
  - left. now rewrite Fab.
  - right. split; [congruence |]. left.
    eapply string_compare_lt_trans; eassumption.
  - right. split; [congruence |]. left. now rewrite <- Lbc.
  - left. now rewrite Fab.
  - right. split; [congruence |]. left. now rewrite Lab.
  - right. split; [congruence |]. right. split; [congruence |].
    eapply string_leb_trans; eassumption.
Qed.

Lemma key_leb_total (a b : cols string) :
  key_leb a b = true \/ key_leb b a = true.
Proof.
  unfold key_leb.
  rewrite (String.compare_antisym (FAC b) (FAC a)).
  rewrite (String.compare_antisym (LOC b) (LOC a)).
  destruct (String.compare (FAC a) (FAC b)); cbn [CompOpp]; auto.
  destruct (String.compare (LOC a) (LOC b)); cbn [CompOpp]; auto.
  apply String.leb_total.
Qed.

(** The grouping of line 90 yields the keys of the batch once each, in
    ascending order of the triple. *)
Theorem groupby_size_ascending (keys : list (cols string)) :
  NoDup (map key (groupby_size keys)) /\
  StronglySorted (le_of key_leb) (map key (groupby_size keys)) /\
  (forall k, In k keys <-> In k (map key (groupby_size keys))).
Proof.
  split; [apply groupby_size_NoDup |].
  rewrite key_groupby_size. split.
  - apply sorted_StronglySorted; [apply key_leb_total |].
    intros a b c. apply key_leb_trans.
  - intros k. rewrite <- (nodup_In key_eq_dec). split; intros H.
    + now apply (Permutation_in _ (Permutation_sym (Permutation_sorted key_leb _))).
    + now apply (Permutation_in _ (Permutation_sorted key_leb _)) in H.
Qed.

Lemma length_take_rows (A : Type) (n : Z) (l : list A) :
  Z.of_nat (List.length (take_rows n l))
  = adjust_index (Z.of_nat (List.length l)) n.
Proof.
  unfold take_rows. rewrite length_firstn.
  pose proof (@adjust_index_range (Z.of_nat (List.length l)) n
                ltac:(lia)) as H.
  lia.
Qed.

Lemma length_process_keys (keys : list (cols string)) (max_rows : option Z) :
  keys <> [] ->
  Z.of_nat (List.length (process_keys keys max_rows))
  = rows_returned max_rows (Z.of_nat (distinct_keys keys)).
Proof.
  intros Hne. unfold process_keys, rows_returned, distinct_keys.
  assert (L : Z.of_nat (List.length (iloc_from_1 (df_cleaned keys)))
              = (Z.of_nat (List.length (nodup key_eq_dec keys)) - 1)%Z).
  { rewrite <- length_df_cleaned. unfold iloc_from_1.
    pose proof (length_df_cleaned keys) as E.
    destruct (df_cleaned keys) as [| g rest]; cbn [tl List.length] in *.
    - destruct keys as [| k keys]; [contradiction |].
      exfalso. assert (Hin : In k (nodup key_eq_dec (k :: keys)))
        by (apply nodup_In; now left).
      destruct (nodup key_eq_dec (k :: keys)); [contradiction | discriminate].
    - lia. }
  unfold truncate. destruct max_rows as [n |]; [| exact L].
  destruct (n =? 0)%Z; [exact L |].
  rewrite length_take_rows, L. unfold adjust_index.
  destruct (n <? 0)%Z; [f_equal; lia | reflexivity].
Qed.

(** The number of returned rows: all groups but the first when
    [max_rows] is [None] or 0; at most [max_rows] of them when it is
    positive; all but the last [-max_rows] of them when it is negative. *)
Theorem process_entities_row_count (ner_entities : list ner_row)
    (max_rows : option Z) :
  ner_entities <> [] ->
  well_labelled ner_entities ->
  exists groups : list group_row,
    process_entities ner_entities max_rows = Ok groups /\
    Z.of_nat (List.length groups)
    = rows_returned max_rows
        (Z.of_nat (distinct_keys (keys_of ner_entities))).
Proof.
  intros Hne Hwl. eexists. split.
  - now apply process_entities_well_labelled.
  - apply length_process_keys. unfold keys_of.
    destruct ner_entities; [contradiction | discriminate].
Qed.

Lemma process_entities_row_count_witness :
  exists groups : list group_row,
    process_entities four_record_batch (Some (-1)%Z) = Ok groups /\
    Z.of_nat (List.length groups) = 2%Z.
Proof.
  apply (@process_entities_row_count four_record_batch (Some (-1)%Z)).
  - discriminate.
  - exact well_labelled_four_record_batch.
Defined.

Lemma nodup_constant (A : Type) (dec : forall a b : A, {a = b} + {a <> b})
    (k : A) (l : list A) :
  l <> [] -> (forall x, In x l -> x = k) -> nodup dec l = [k].
Proof.
  induction l as [| a l IH]; [contradiction |].
  intros _ Hall. assert (a = k) by (apply Hall; now left). subst a.
  destruct l as [| b l]; [reflexivity |].
  assert (Hl : nodup dec (b :: l) = [k]).
  { apply IH; [discriminate |]. intros x Hx. apply Hall. now right. }
  cbn [nodup]. destruct (in_dec dec k (b :: l)) as [_ | Hn]; [exact Hl |].
  exfalso. apply Hn. left. apply Hall. right. now left.
Qed.

(** A batch whose records all have the same key, whatever the key,
    returns no row: its only group is the first one. *)
Theorem single_key_batch_returns_nothing (ner_entities : list ner_row)
    (max_rows : option Z) (k : cols string) :
  ner_entities <> [] ->
  well_labelled ner_entities ->
  (forall row, In row ner_entities -> canonical_key (entities_of row) = k) ->
  process_entities ner_entities max_rows = Ok [].
Proof.
  intros Hne Hwl Hall.
  rewrite process_entities_well_labelled by assumption. f_equal.
  unfold process_keys, df_cleaned, groupby_size.
  rewrite (@nodup_constant _ key_eq_dec k (keys_of ner_entities)).
  - cbn [sorted insert_sorted map iloc_from_1 tl].
    unfold truncate, take_rows. destruct max_rows as [n |]; [| reflexivity].
    destruct (n =? 0)%Z; [reflexivity | apply firstn_nil].
  - unfold keys_of. destruct ner_entities; [contradiction | discriminate].
  - unfold keys_of. intros x Hx. apply in_map_iff in Hx.
    destruct Hx as (row & <- & Hrow). now apply Hall.
Qed.

Lemma single_key_batch_returns_nothing_witness :
  process_entities tampa_thrice default_max_rows = Ok [].
Proof.
  apply (@single_key_batch_returns_nothing tampa_thrice default_max_rows
           {| FAC := ""; LOC := ""; GPE := "Tampa" |}).
  - discriminate.
  - unfold well_labelled, tampa_thrice, span.
    repeat (constructor;
            [cbn [label];
             repeat (constructor; [unfold int_span; eauto |]); constructor |]).
    constructor.
  - intros row [<- | [<- | [<- | []]]]; reflexivity.
Defined.

(* ================================================================= *)
(** ** More on geocoding *)

Section GeocodeFailures.

Variable coord : Type.
Variable polygon : Type.
Variable service : Type.
Variable service_geocode :
  service -> string -> Z -> result (option (coord * coord)) * service.

Lemma geocode_address_answers (row : group_row) (w : world polygon service) :
  answers (fst (service_geocode (geolocator w) (address_of row) 10%Z)) ->
  geocode_address service_geocode row w
  = (Ok (coordinates_of
           (fst (service_geocode (geolocator w) (address_of row) 10%Z))),
     after_lookup service_geocode row w).
Proof.
  unfold geocode_address, try_except, geolocator_geocode, emit, after_lookup,
    answers.
  cbn [bind ret M_Monad].
  destruct (service_geocode (geolocator w) (address_of row) 10)
    as [r s] eqn:E.
  cbn [fst snd geolocator files trace]. intros Hc.
  destruct r as [[[latitude longitude] |] | e]; try reflexivity.
  rewrite (Hc e eq_refl).
  destruct (pyexn_eq_dec GeocoderTimedOut GeocoderTimedOut);
    [reflexivity | congruence].
Qed.

Lemma geocode_address_raises (row : group_row) (w : world polygon service)
    (e : pyexn) :
  fst (service_geocode (geolocator w) (address_of row) 10%Z) = Raise e ->
  e <> GeocoderTimedOut ->
  geocode_address service_geocode row w
  = (Raise e, after_lookup service_geocode row w).
Proof.
  unfold geocode_address, try_except, geolocator_geocode, emit, after_lookup.
  cbn [bind ret M_Monad].
  destruct (service_geocode (geolocator w) (address_of row) 10)
    as [r s] eqn:E.
  cbn [fst snd geolocator files trace]. intros -> Hne.
  destruct (pyexn_eq_dec e GeocoderTimedOut); [contradiction | reflexivity].
Qed.

Lemma map_rows_geocode_prefix (pre rest : list group_row)
    (w : world polygon service) :
  Forall (@answers _) (lookups service_geocode (geolocator w) pre) ->
  map_rows (geocode_address service_geocode) (pre ++ rest) w
  = match map_rows (geocode_address service_geocode) rest
            (after_lookups service_geocode pre w) with
    | (Ok cs, w') =>
        (Ok (map (@coordinates_of coord)
                 (lookups service_geocode (geolocator w) pre) ++ cs), w')
    | (Raise e, w') => (Raise e, w')
    end.
Proof.
  revert w. induction pre as [| g pre IH]; intros w H.
  - unfold after_lookups. cbn. rewrite app_nil_r.
    replace {| geolocator := geolocator w; files := files w;
               trace := trace w |} with w by now destruct w.
    now destruct (map_rows (geocode_address service_geocode) rest w)
      as [[cs | e] w'].
  - cbn [lookups] in H. inversion H as [| r rs Hr Hrs]; subst.
    cbn [app map_rows bind M_Monad].
    rewrite (geocode_address_answers g w Hr).
    rewrite (IH (after_lookup service_geocode g w)) by exact Hrs.
    assert (E : after_lookups service_geocode pre
                  (after_lookup service_geocode g w)
                = after_lookups service_geocode (g :: pre) w).
    { unfold after_lookups, after_lookup.
      cbn [geolocator files trace service_after map].
      now rewrite <- app_assoc. }
    rewrite E.
    destruct (map_rows (geocode_address service_geocode) rest
                (after_lookups service_geocode (g :: pre) w)) as [[cs | e] w'];
      reflexivity.
Qed.

(** When the lookups answer or time out. *)
Lemma geocode_data_answers (data : list group_row)
    (w : world polygon service) :
  data <> [] ->
  Forall (@answers _) (lookups service_geocode (geolocator w) data) ->
  geocode_data service_geocode data w
  = (Ok (filter_map (@resolved coord)
           (combine data (lookups service_geocode (geolocator w) data))),
     after_lookups service_geocode data w).
Proof.
  intros Hne H. unfold geocode_data, apply_rows.
  destruct data as [| g rest]; [contradiction |].
  cbn [bind M_Monad].
  rewrite <- (app_nil_r (g :: rest)) at 1.
  rewrite map_rows_geocode_prefix by exact H.
  cbn [map_rows ret M_Monad]. rewrite app_nil_r.
  now rewrite dropna_resolved.
Qed.

(** An exception of the service other than a timeout is not caught: it
    ends [geocode_data] at the group it occurs for, the groups after it
    are not looked up, and no frame is returned. *)
Theorem geocode_data_aborts_on_failure (pre : list group_row)
    (g : group_row) (post : list group_row) (e : pyexn)
    (w : world polygon service) :
  Forall (@answers _) (lookups service_geocode (geolocator w) pre) ->
  fst (service_geocode (service_after service_geocode (geolocator w) pre)
         (address_of g) 10%Z) = Raise e ->
  e <> GeocoderTimedOut ->
  exists w' : world polygon service,
    geocode_data service_geocode (pre ++ g :: post) w = (Raise e, w') /\
    trace w'
    = trace w ++ map (fun g => Geocode (address_of g) 10) (pre ++ [g]).
Proof.
  intros Hpre Hg Hne. unfold geocode_data, apply_rows.
  assert (E : map_rows (geocode_address service_geocode)
                (pre ++ g :: post) w
              = (Raise e,
                 after_lookup service_geocode g
                   (after_lookups service_geocode pre w))).
  { rewrite map_rows_geocode_prefix by exact Hpre.
    cbn [map_rows bind M_Monad].
    rewrite geocode_address_raises with (e := e); trivial. }
  exists (after_lookup service_geocode g
            (after_lookups service_geocode pre w)).
  split.
  - destruct (pre ++ g :: post) eqn:L.
    + now destruct pre.
    + cbn [bind M_Monad]. now rewrite E.
  - unfold after_lookup, after_lookups. cbn [trace].
    now rewrite map_app, app_assoc.
Qed.

End GeocodeFailures.

Lemma geocode_data_aborts_on_failure_witness :
  exists w' : world string nat,
    geocode_data failing_geocode groups_with_atlantis sample_world
    = (Raise GeocoderServiceError, w') /\
    trace w' = [ Geocode ", , Tampa" 10; Geocode ", , Atlantis" 10 ].
Proof.
  apply (@geocode_data_aborts_on_failure Z string nat failing_geocode
           [group_of "Tampa" 3] (group_of "Atlantis" 1)
           [group_of "Miami" 2] GeocoderServiceError sample_world).
  - repeat constructor. intros e. discriminate.
  - reflexivity.
  - discriminate.
Defined.

(* ================================================================= *)
(** ** More on the spatial join and the state polygons *)

Section SpatialMore.

Variable coord : Type.
Variable polygon : Type.
Variable within : coord -> coord -> polygon -> bool.
Variable to_crs : string -> string -> polygon -> polygon.
Variable service : Type.

(** With target states, the frame keeps exactly the points that lie
    within a boundary whose name is one of the targets, the boundaries
    taken in the frame's reference system; the boundary file is read
    once. *)
Theorem create_geodataframe_filters (self : processor)
    (df : list (geocoded_row coord)) (state : string) (states : list string)
    (f : shapefile polygon) (w : world polygon service) :
  files w (shapefile_path self) = Some f ->
  exists out : list (spatial_row coord polygon),
    create_geodataframe within to_crs self df (Some (state :: states)) w
    = (Ok out, emit (ReadFile (shapefile_path self)) w) /\
    forall r : spatial_row coord polygon,
      In r out <->
      exists (row : geocoded_row coord) (b : boundary_row polygon),
        In row df /\ r = point_of polygon row /\
        In b (features f) /\ In (name b) (state :: states) /\
        geom_within within (geometry r) (in_frame_crs to_crs f b) = true.
Proof.
  intros Hf. unfold create_geodataframe, read_file.
  cbn [truthy bind M_Monad ret]. rewrite Hf.
  eexists. split; [reflexivity |].
  intros r. unfold sjoin_within. rewrite in_flat_map. unfold in_frame_crs.
  split.
  - intros (l & Hl & Hr). apply in_map_iff in Hl.
    destruct Hl as (row & <- & Hrow).
    apply in_map_iff in Hr. destruct Hr as (b & <- & Hb).
    apply filter_In in Hb. destruct Hb as [Hb Hin].
    destruct (String.eqb "EPSG:4326" (crs f)).
    + apply filter_In in Hb. destruct Hb as [Hb Hname].
      exists row, b. repeat split; trivial.
      now apply existsb_eqb_In in Hname.
    + apply in_map_iff in Hb. destruct Hb as (b0 & <- & Hb0).
      apply filter_In in Hb0. destruct Hb0 as [Hb0 Hname].
      exists row, b0. repeat split; trivial.
      now apply existsb_eqb_In in Hname.
  - intros (row & b & Hrow & -> & Hb & Hname & Hin).
    exists (point_of polygon row). split.
    + apply in_map_iff. exists row. now split.
    + apply in_map_iff.
      assert (Hsel : In b (filter (fun r => isin (name r)
                                              (Some (state :: states)))
                                  (features f))).
      { apply filter_In. split; [exact Hb |].
        now apply existsb_eqb_In. }
      destruct (String.eqb "EPSG:4326" (crs f)).
      * exists b. split; [reflexivity |]. apply filter_In. now split.
      * exists {| name := name b;
                  boundary := to_crs (crs f) "EPSG:4326" (boundary b) |}.
        split; [reflexivity |]. apply filter_In. split; [| exact Hin].
        apply in_map_iff. exists b. now split.
Qed.

Lemma apply_rows_make_polygon (gdf : list (spatial_row coord polygon))
    (w : world polygon service) :
  apply_rows (M := M polygon service)
    (fun row => ret (make_polygon_of row)) (ret Reduced) gdf w
  = (Ok (map (@make_polygon_of coord polygon) gdf), w).
Proof.
  unfold apply_rows.
  destruct gdf as [| r0 rest]; [reflexivity |].
  generalize (r0 :: rest). clear. intros l.
  induction l as [| r l IH]; [reflexivity |].
  cbn [map_rows bind M_Monad ret map] in *. now rewrite IH.
Qed.

Lemma combine_map_self (A B : Type) (g : A -> B) (l : list A) :
  combine l (map g l) = map (fun a => (a, g a)) l.
Proof. induction l; cbn; congruence. Qed.

(** What [add_state_polygons] returns when the boundary file is there. *)
Lemma add_state_polygons_run (self : processor)
    (gdf : list (spatial_row coord polygon)) (f : shapefile polygon)
    (w : world polygon service) :
  files w (shapefile_path self) = Some f ->
  add_state_polygons self gdf w
  = (Ok (map (@assign_geometry coord polygon)
           (merge_left (map (fun r => (r, make_polygon_of r)) gdf)
              (map (fun r => {| name := lower (name r);
                                boundary := boundary r |})
                   (features f)))),
     emit (ReadFile (shapefile_path self)) w).
Proof.
  intros Hf. unfold add_state_polygons.
  cbn [bind M_Monad]. rewrite apply_rows_make_polygon.
  unfold read_file. rewrite Hf. cbn [ret M_Monad].
  now rewrite combine_map_self.
Qed.

(** Without the boundary file both steps that need it fail with
    [DataSourceError]: the spatial filter, and the polygon step on a
    frame that has rows. *)
Theorem missing_boundary_file_raises (self : processor)
    (df : list (geocoded_row coord)) (state : string) (states : list string)
    (gdf : list (spatial_row coord polygon)) (w : world polygon service) :
  files w (shapefile_path self) = None ->
  gdf <> [] ->
  fst (create_geodataframe within to_crs self df (Some (state :: states)) w)
  = Raise DataSourceError /\
  fst (add_state_polygons self gdf w) = Raise DataSourceError.
Proof.
  intros Hf Hne. split.
  - unfold create_geodataframe, read_file.
    cbn [truthy bind M_Monad]. now rewrite Hf.
  - unfold add_state_polygons. cbn [bind M_Monad].
    rewrite apply_rows_make_polygon.
    unfold read_file. now rewrite Hf.
Qed.

Lemma In_merge_left (gdf : list (spatial_row coord polygon * Z))
    (cultural : list (boundary_row polygon)) (m : merged_row coord polygon) :
  In m (merge_left gdf cultural) ->
  exists l z,
    In (l, z) gdf /\ m_attrs m = attrs l /\ geometry_x m = geometry l /\
    make_polygon m = z /\
    (geometry_y m = None \/
     exists b, In b cultural /\
               name b = strip is_space (lower (GPE_of l)) /\
               geometry_y m = Some (Polygon (boundary b))).
Proof.
  unfold merge_left. rewrite in_flat_map.
  intros ([l z] & Hlz & Hm). cbn [fst snd] in Hm.
  exists l, z. split; [exact Hlz |].
  destruct (filter _ cultural) as [| b0 bs] eqn:E.
  - destruct Hm as [<- | []]. cbn. tauto.
  - rewrite <- E in Hm. apply in_map_iff in Hm.
    destruct Hm as (b & <- & Hb). apply filter_In in Hb.
    destruct Hb as [Hb Hname]. apply String.eqb_eq in Hname.
    cbn. repeat split. right. exists b. now repeat split.
Qed.

(** Every returned row comes from a row of the frame and keeps its
    attributes, its point in [geometry_x], and its flag; its [geometry] is
    missing, or, for a flagged row, the polygon of a boundary whose
    lower-cased name is the row's lower-cased, stripped GPE.  No returned
    row has a point in [geometry]. *)
Theorem add_state_polygons_rows (self : processor)
    (gdf : list (spatial_row coord polygon)) (f : shapefile polygon)
    (w : world polygon service) :
  gdf <> [] ->
  files w (shapefile_path self) = Some f ->
  exists out : list (state_row coord polygon),
    fst (add_state_polygons self gdf w) = Ok out /\
    Forall
      (fun r =>
         exists l, In l gdf /\
           s_attrs r = attrs l /\ s_geometry_x r = geometry l /\
           s_make_polygon r = make_polygon_of l /\
           (s_geometry r = None \/
            (make_polygon_of l = 1%Z /\
             exists b, In b (features f) /\
               lower (name b) = strip is_space (lower (GPE_of l)) /\
               s_geometry r = Some (Polygon (boundary b)))))
      out.
Proof.
  intros Hne Hf. rewrite (@add_state_polygons_run self gdf f w Hf).
  eexists. split; [reflexivity |].
  apply Forall_forall. intros r Hr. apply in_map_iff in Hr.
  destruct Hr as (m & <- & Hm). apply In_merge_left in Hm.
  destruct Hm as (l & z & Hlz & Ha & Hx & Hz & Hy).
  apply in_map_iff in Hlz. destruct Hlz as (l0 & [= -> <-] & Hl).
  exists l. unfold assign_geometry.
  cbn [s_attrs s_geometry_x s_make_polygon s_geometry].
  repeat split; trivial.
  destruct (Z.eqb_spec (make_polygon m) 1) as [E | E]; [| now left].
  destruct Hy as [Hy | (b & Hb & Hname & Hy)]; [now left |].
  right. split; [congruence |].
  apply in_map_iff in Hb. destruct Hb as (b0 & <- & Hb0).
  exists b0. now repeat split.
Qed.

Lemma length_merge_left (gdf : list (spatial_row coord polygon * Z))
    (cultural : list (boundary_row polygon)) :
  List.length gdf <= List.length (merge_left gdf cultural).
Proof.
  unfold merge_left. induction gdf as [| lz gdf IH]; [constructor |].
  cbn [flat_map]. rewrite length_app.
  match goal with
  | |- context [List.length ?piece + _] =>
      assert (P : 1 <= List.length piece)
  end.
  { destruct (filter _ cultural) as [| b0 bs]; cbn [List.length map]; lia. }
  cbn [List.length]. lia.
Qed.

Lemma filter_name_NoDup (x : string) (cultural : list (boundary_row polygon)) :
  NoDup (map (@name polygon) cultural) ->
  List.length (filter (fun r => String.eqb x (name r)) cultural) <= 1.
Proof.
  induction cultural as [| b bs IH]; cbn [map filter];
    [intros _; cbn; lia |].
  intros Hall. inversion Hall as [| ? ? Hnot Hnd]; subst.
  destruct (String.eqb_spec x (name b)) as [-> | Hx]; [| now apply IH].
  cbn [List.length].
  assert (E : filter (fun r => String.eqb (name b) (name r)) bs = []).
  { clear -Hnot. induction bs as [| c bs IH]; [reflexivity |].
    cbn [filter]. destruct (String.eqb_spec (name b) (name c)) as [E | E].
    - exfalso. apply Hnot. left. now symmetry.
    - apply IH. intros Hin. apply Hnot. now right. }
  rewrite E. constructor.
Qed.

Lemma merge_left_NoDup (gdf : list (spatial_row coord polygon * Z))
    (cultural : list (boundary_row polygon)) :
  NoDup (map (@name polygon) cultural) ->
  map (@m_attrs coord polygon) (merge_left gdf cultural)
  = map (fun lz => attrs (fst lz)) gdf.
Proof.
  intros Hnd. unfold merge_left.
  induction gdf as [| lz gdf IH]; [reflexivity |].
  cbn [flat_map]. rewrite map_app, IH. cbn [map].
  pose proof (@filter_name_NoDup
                (strip is_space (lower (GPE_of (fst lz)))) cultural Hnd) as L.
  destruct (filter _ cultural) as [| b0 [| b1 bs]]; cbn in *;
    [reflexivity | reflexivity | lia].
Qed.

(** The polygon step never loses a row; when no two boundaries have the
    same lower-cased name it returns the rows of the frame one for one,
    in order, and when some do, a row can come out more than once. *)
Theorem add_state_polygons_keeps_rows (self : processor)
    (gdf : list (spatial_row coord polygon)) (f : shapefile polygon)
    (w : world polygon service) :
  gdf <> [] ->
  files w (shapefile_path self) = Some f ->
  exists out : list (state_row coord polygon),
    fst (add_state_polygons self gdf w) = Ok out /\
    List.length gdf <= List.length out /\
    (NoDup (lower_names f) ->
     map (@s_attrs coord polygon) out = map (@attrs coord polygon) gdf).
Proof.
  intros Hne Hf. rewrite (@add_state_polygons_run self gdf f w Hf).
  eexists. split; [reflexivity |]. split.
  - rewrite length_map.
    rewrite <- (length_map (fun r => (r, make_polygon_of r)) gdf) at 1.
    apply length_merge_left.
  - intros Hnd. rewrite map_map.
    change (fun x => s_attrs (assign_geometry x))
      with (@m_attrs coord polygon).
    rewrite merge_left_NoDup.
    + now rewrite map_map.
    + unfold lower_names in Hnd. rewrite map_map. cbn [name]. exact Hnd.
Qed.

End SpatialMore.

Lemma create_geodataframe_filters_witness :
  exists out : list (spatial_row Z string),
    create_geodataframe east_or_west same_crs
      {| shapefile_path := "halves.shp" |} two_cities (Some ["West"])
      halves_world
    = (Ok out, emit (ReadFile "halves.shp") halves_world) /\
    forall r : spatial_row Z string,
      In r out <->
      exists (row : geocoded_row Z) (b : boundary_row string),
        In row two_cities /\ r = point_of string row /\
        In b [ {| name := "West"; boundary := "west" |};
               {| name := "East"; boundary := "east" |} ] /\
        In (name b) ["West"] /\
        geom_within east_or_west (geometry r) (boundary b) = true.
Proof.
  apply (@create_geodataframe_filters Z string east_or_west same_crs nat
           {| shapefile_path := "halves.shp" |} two_cities "West" []
           {| crs := "EPSG:4326";
              features := [ {| name := "West"; boundary := "west" |};
                            {| name := "East"; boundary := "east" |} ] |}
           halves_world).
  reflexivity.
Defined.

Example pensacola_is_west :
  fst (create_geodataframe east_or_west same_crs
         {| shapefile_path := "halves.shp" |} two_cities (Some ["West"])
         halves_world)
  = Ok [ point_of string
           {| group := group_of "Pensacola" 1; Latitude := Float 30%Z;
              Longitude := Float (-87)%Z |} ].
Proof. reflexivity. Qed.

Lemma missing_boundary_file_raises_witness :
  fst (create_geodataframe east_or_west same_crs
         {| shapefile_path := "nowhere.shp" |} two_cities (Some ["West"])
         sample_world)
  = Raise DataSourceError /\
  fst (add_state_polygons {| shapefile_path := "nowhere.shp" |}
         florida_gdf sample_world)
  = Raise DataSourceError.
Proof.
  apply (@missing_boundary_file_raises Z string east_or_west same_crs nat
           {| shapefile_path := "nowhere.shp" |} two_cities "West" []
           florida_gdf sample_world).
  - reflexivity.
  - discriminate.
Defined.

Lemma add_state_polygons_rows_witness :
  exists out : list (state_row Z string),
    fst (add_state_polygons {| shapefile_path := "states.shp" |}
           mixed_gdf sample_world) = Ok out /\
    Forall
      (fun r =>
         exists l, In l mixed_gdf /\
           s_attrs r = attrs l /\ s_geometry_x r = geometry l /\
           s_make_polygon r = make_polygon_of l /\
           (s_geometry r = None \/
            (make_polygon_of l = 1%Z /\
             exists b,
               In b [ {| name := "Florida"; boundary := "FL outline" |};
                      {| name := "Georgia"; boundary := "GA outline" |} ] /\
               lower (name b) = strip is_space (lower (GPE_of l)) /\
               s_geometry r = Some (Polygon (boundary b)))))
      out.
Proof.
  apply (@add_state_polygons_rows Z string nat
           {| shapefile_path := "states.shp" |} mixed_gdf
           {| crs := "EPSG:4326";
              features := [ {| name := "Florida"; boundary := "FL outline" |};
                            {| name := "Georgia"; boundary := "GA outline" |} ] |}
           sample_world).
  - discriminate.
  - reflexivity.
Defined.

Lemma add_state_polygons_keeps_rows_witness :
  exists out : list (state_row Z string),
    fst (add_state_polygons {| shapefile_path := "states.shp" |}
           mixed_gdf sample_world) = Ok out /\
    List.length mixed_gdf <= List.length out /\
    (NoDup ["florida"; "georgia"] ->
     map (@s_attrs Z string) out = map (@attrs Z string) mixed_gdf).
Proof.
  apply (@add_state_polygons_keeps_rows Z string nat
           {| shapefile_path := "states.shp" |} mixed_gdf
           {| crs := "EPSG:4326";
              features := [ {| name := "Florida"; boundary := "FL outline" |};
                            {| name := "Georgia"; boundary := "GA outline" |} ] |}
           sample_world).
  - discriminate.
  - reflexivity.
Defined.

(* ================================================================= *)
(** ** The state test ignores case and surrounding whitespace *)

Lemma lower_char_idempotent (c : ascii) :
  lower_char (lower_char c) = lower_char c.
Proof.
  destruct c as [[] [] [] [] [] [] [] []]; reflexivity.
Qed.

Lemma is_space_lower_char (c : ascii) :
  is_space (lower_char c) = is_space c.
Proof.
  destruct c as [[] [] [] [] [] [] [] []]; reflexivity.
Qed.

Lemma lower_idempotent (s : string) : lower (lower s) = lower s.
Proof.
  induction s as [| c s IH]; cbn [lower]; [reflexivity |].
  now rewrite lower_char_idempotent, IH.
Qed.

Lemma lower_lstrip (s : string) :
  lower (lstrip is_space s) = lstrip is_space (lower s).
Proof.
  induction s as [| c s IH]; cbn [lower lstrip]; [reflexivity |].
  rewrite is_space_lower_char. destruct (is_space c); [exact IH | reflexivity].
Qed.

Lemma lower_rstrip (s : string) :
  lower (rstrip is_space s) = rstrip is_space (lower s).
Proof.
  induction s as [| c s IH]; cbn [lower rstrip]; [reflexivity |].
  rewrite <- IH, is_space_lower_char.
  destruct (rstrip is_space s) as [| y r]; cbn [lower]; [| reflexivity].
  destruct (is_space c); reflexivity.
Qed.

Lemma lower_strip (s : string) :
  lower (strip is_space s) = strip is_space (lower s).
Proof. unfold strip. now rewrite lower_rstrip, lower_lstrip. Qed.

Lemma lstrip_fixed (p : ascii -> bool) (s : string) :
  (forall c, first_char s = Some c -> p c = false) -> lstrip p s = s.
Proof.
  destruct s as [| x s]; cbn; [reflexivity |].
  intros H. now rewrite (H x eq_refl).
Qed.

Lemma rstrip_fixed (p : ascii -> bool) (s : string) :
  (forall c, last_char s = Some c -> p c = false) -> rstrip p s = s.
Proof.
  induction s as [| x s IH]; [reflexivity |].
  destruct s as [| y s].
  - cbn. intros H. now rewrite (H x eq_refl).
  - intros H. change (rstrip p (String x (String y s)))
      with (match rstrip p (String y s) with
            | EmptyString => if p x then EmptyString else String x EmptyString
            | r => String x r
            end).
    rewrite IH by exact H. reflexivity.
Qed.

Lemma strip_idempotent (p : ascii -> bool) (s : string) :
  strip p (strip p s) = strip p s.
Proof.
  destruct (strip_trimmed p s) as [Hf Hl].
  unfold strip at 1. now rewrite (lstrip_fixed _ _ Hf), (rstrip_fixed _ _ Hl).
Qed.

(** A GPE is taken for a state whatever its letter case and whatever
    whitespace surrounds it: the test gives the same answer on the
    lower-cased and on the stripped string. *)
Theorem contains_us_state_exact_insensitive (gpe_value : string) :
  contains_us_state_exact (lower gpe_value)
  = contains_us_state_exact gpe_value /\
  contains_us_state_exact (strip is_space gpe_value)
  = contains_us_state_exact gpe_value.
Proof.
  unfold contains_us_state_exact. split.
  - now rewrite lower_idempotent.
  - now rewrite lower_strip, strip_idempotent.
Qed.

(* ================================================================= *)
(** ** The run as a whole *)

Section MainProofs.

Variable coord : Type.
Variable polygon : Type.
Variable within : coord -> coord -> polygon -> bool.
Variable to_crs : string -> string -> polygon -> polygon.
Variable service : Type.
Variable service_geocode :
  service -> string -> Z -> result (option (coord * coord)) * service.

Lemma lookups_answer (s : service) (data : list group_row) :
  only_times_out service_geocode ->
  Forall (@answers _) (lookups service_geocode s data).
Proof.
  intros Hc. revert s. induction data as [| g data IH]; intros s;
    cbn [lookups]; constructor; [| apply IH].
  intros e He. exact (Hc _ _ _ _ He).
Qed.

Lemma finds_nothing_answers (r : result (option (coord * coord))) :
  finds_nothing r -> answers r.
Proof.
  intros [-> | ->] e; [discriminate |]. now intros [= <-].
Qed.

Lemma filter_map_resolved_nothing (data : list group_row)
    (rs : list (result (option (coord * coord)))) :
  Forall (@finds_nothing _) rs ->
  filter_map (@resolved coord) (combine data rs) = [].
Proof.
  intros H. revert data. induction H as [| r rs Hr _ IH]; intros [| g data];
    try reflexivity.
  cbn [combine filter_map]. unfold resolved at 1. cbn [snd].
  destruct Hr as [-> | ->]; apply IH.
Qed.

Lemma filter_is_geocode_lookups (l : list event) (data : list group_row) :
  filter is_geocode (l ++ map (fun g => Geocode (address_of g) 10) data)
  = filter is_geocode l ++ map (fun g => Geocode (address_of g) 10) data.
Proof.
  rewrite filter_app. f_equal.
  induction data as [| g data IH]; [reflexivity |].
  cbn [map filter is_geocode]. now rewrite IH.
Qed.

Lemma filter_is_geocode_read (l : list event) (path : string) :
  filter is_geocode (l ++ [ReadFile path]) = filter is_geocode l.
Proof. rewrite filter_app. cbn. apply app_nil_r. Qed.

Lemma create_geodataframe_lookups (self : processor)
    (df : list (geocoded_row coord)) (states : option (list string))
    (w : world polygon service) :
  filter is_geocode
    (trace (snd (create_geodataframe within to_crs self df states w)))
  = filter is_geocode (trace w).
Proof.
  unfold create_geodataframe, read_file.
  destruct (truthy states); [| reflexivity].
  cbn [bind M_Monad ret].
  destruct (files w (shapefile_path self)); cbn [snd emit trace];
    apply filter_is_geocode_read.
Qed.

Lemma add_state_polygons_lookups (self : processor)
    (gdf : list (spatial_row coord polygon)) (w : world polygon service) :
  filter is_geocode (trace (snd (add_state_polygons self gdf w)))
  = filter is_geocode (trace w).
Proof.
  unfold add_state_polygons. cbn [bind M_Monad].
  rewrite apply_rows_make_polygon.
  unfold read_file.
  destruct (files w (shapefile_path self)); cbn [ret M_Monad snd emit trace];
    apply filter_is_geocode_read.
Qed.

(** The steps of [main] after geocoding make no lookup. *)
Lemma after_geocoding_lookups (self : processor)
    (df : list (geocoded_row coord)) (states : option (list string))
    (w : world polygon service) :
  filter is_geocode
    (trace (snd ((gdf <- create_geodataframe within to_crs self df states ;;
                  gdf <- add_state_polygons self gdf ;;
                  ret (clean_geometry gdf)) w)))
  = filter is_geocode (trace w).
Proof.
  cbn [bind M_Monad].
  pose proof (create_geodataframe_lookups self df states w) as Hc.
  destruct (create_geodataframe within to_crs self df states w)
    as [[gdf | e] w1]; cbn [snd] in *; [| exact Hc].
  pose proof (add_state_polygons_lookups self gdf w1) as Ha.
  destruct (add_state_polygons self gdf w1) as [[out | e] w2];
    cbn [snd ret M_Monad] in *; congruence.
Qed.

Lemma geocode_address_trace (row : group_row) (w : world polygon service) :
  trace (snd (geocode_address service_geocode row w))
  = trace w ++ [Geocode (address_of row) 10].
Proof.
  unfold geocode_address, try_except, geolocator_geocode, emit.
  cbn [bind ret M_Monad].
  destruct (service_geocode (geolocator w) (address_of row) 10)
    as [r s].
  destruct r as [[[latitude longitude] |] | e]; try reflexivity.
  destruct (pyexn_eq_dec e GeocoderTimedOut); reflexivity.
Qed.

(** On a frame without rows [geocode_data] makes the one lookup of the
    probe, for the address "nan, nan, nan", and raises [ValueError]. *)
Lemma geocode_data_empty (w : world polygon service) :
  geocode_data service_geocode [] w
  = (Raise ValueError, snd (geocode_address service_geocode nan_row w)).
Proof. reflexivity. Qed.

Lemma main_lookups (self : processor)
    (ner_entities : list ner_row) (max_rows : option Z)
    (states : option (list string)) (w : world polygon service) :
  ner_entities <> [] ->
  well_labelled ner_entities ->
  only_times_out service_geocode ->
  filter is_geocode
    (trace (snd (main_frames within to_crs service_geocode self
                   ner_entities max_rows states w)))
  = filter is_geocode (trace w)
    ++ map (fun g => Geocode (address_of g) 10)
         (looked_up (process_keys (keys_of ner_entities) max_rows)).
Proof.
  intros Hne Hwl Hc.
  unfold main_frames, lift. cbn [bind M_Monad].
  rewrite process_entities_well_labelled by assumption.
  destruct (process_keys (keys_of ner_entities) max_rows) as [| g gs] eqn:E.
  - rewrite geocode_data_empty. cbn [snd looked_up map].
    rewrite geocode_address_trace. apply filter_app.
  - rewrite geocode_data_answers
      by (discriminate || now apply lookups_answer).
    pose proof (after_geocoding_lookups self
                  (filter_map (@resolved coord)
                     (combine (g :: gs)
                        (lookups service_geocode (geolocator w) (g :: gs))))
                  states (after_lookups service_geocode (g :: gs) w)) as H.
    cbn [bind M_Monad] in H. rewrite H.
    unfold after_lookups. cbn [trace looked_up].
    apply filter_is_geocode_lookups.
Qed.

(** A run looks up exactly the groups that [process_entities] returns,
    once each and in their order, whether or not it then fails at a later
    step; when [process_entities] returns no group, it makes one lookup,
    for the address "nan, nan, nan". *)
Theorem main_looks_up_returned_groups (self : processor)
    (ner_entities : list ner_row) (max_rows : option Z)
    (states : option (list string)) (w : world polygon service) :
  ner_entities <> [] ->
  well_labelled ner_entities ->
  only_times_out service_geocode ->
  exists groups : list group_row,
    process_entities ner_entities max_rows = Ok groups /\
    filter is_geocode
      (trace (snd (main_frames within to_crs service_geocode self
                     ner_entities max_rows states w)))
    = filter is_geocode (trace w)
      ++ map (fun g => Geocode (address_of g) 10) (looked_up groups).
Proof.
  intros Hne Hwl Hc.
  exists (process_keys (keys_of ner_entities) max_rows).
  split; [now apply process_entities_well_labelled |].
  now apply main_lookups.
Qed.

(** With a positive [max_rows] a run makes at most [max_rows]
    lookups. *)
Theorem main_lookup_budget (self : processor)
    (ner_entities : list ner_row) (n : Z)
    (states : option (list string)) (w : world polygon service) :
  ner_entities <> [] ->
  well_labelled ner_entities ->
  only_times_out service_geocode ->
  (0 < n)%Z ->
  (Z.of_nat (List.length (filter is_geocode
      (trace (snd (main_frames within to_crs service_geocode self
                     ner_entities (Some n) states w)))))
   <= Z.of_nat (List.length (filter is_geocode (trace w))) + n)%Z.
Proof.
  intros Hne Hwl Hc Hn.
  rewrite (main_lookups self (Some n) states w Hne Hwl Hc).
  rewrite length_app, length_map, Nat2Z.inj_add.
  assert (L : Z.of_nat (List.length
                (process_keys (keys_of ner_entities) (Some n)))
              = rows_returned (Some n)
                  (Z.of_nat (distinct_keys (keys_of ner_entities)))).
  { apply length_process_keys. unfold keys_of.
    destruct ner_entities; [contradiction | discriminate]. }
  destruct (process_keys (keys_of ner_entities) (Some n)) as [| g gs].
  - cbn [looked_up List.length]. lia.
  - cbn [looked_up]. rewrite L. unfold rows_returned.
    destruct (Z.eqb_spec n 0); [lia |].
    destruct (Z.ltb_spec n 0); lia.
Qed.

(** When [process_entities] returns groups and no lookup finds a location
    (the service is down, or knows none of the addresses), a run without
    target states whose boundary file is there returns an empty frame: no
    step fails. *)
Theorem main_returns_empty_without_locations (self : processor)
    (ner_entities : list ner_row) (max_rows : option Z)
    (states : option (list string)) (groups : list group_row)
    (f : shapefile polygon) (w : world polygon service) :
  process_entities ner_entities max_rows = Ok groups ->
  groups <> [] ->
  Forall (@finds_nothing _)
    (lookups service_geocode (geolocator w) groups) ->
  truthy states = false ->
  files w (shapefile_path self) = Some f ->
  fst (main_frames within to_crs service_geocode self ner_entities
         max_rows states w)
  = Ok [].
Proof.
  intros Hp Hne Hnone Hstates Hf.
  unfold main_frames, lift. cbn [bind M_Monad]. rewrite Hp.
  rewrite geocode_data_answers; [| exact Hne |].
  2: { eapply Forall_impl; [| exact Hnone]. apply finds_nothing_answers. }
  rewrite filter_map_resolved_nothing by exact Hnone.
  unfold create_geodataframe. rewrite Hstates. cbn [map ret M_Monad].
  rewrite (@add_state_polygons_run coord polygon service self [] f
             (after_lookups service_geocode groups w))
    by exact Hf.
  reflexivity.
Qed.

(** When [process_entities] returns no group, a run makes the one lookup
    of the probe and ends with [ValueError] in [geocode_data]. *)
Theorem main_fails_when_no_group_returned (self : processor)
    (ner_entities : list ner_row) (max_rows : option Z)
    (states : option (list string)) (w : world polygon service) :
  process_entities ner_entities max_rows = Ok [] ->
  exists w' : world polygon service,
    main_frames within to_crs service_geocode self ner_entities
      max_rows states w
    = (Raise ValueError, w') /\
    trace w' = trace w ++ [Geocode "nan, nan, nan" 10].
Proof.
  intros Hp. unfold main_frames, lift. cbn [bind M_Monad]. rewrite Hp.
  rewrite geocode_data_empty. eexists. split; [reflexivity |].
  apply geocode_address_trace.
Qed.

End MainProofs.

Lemma main_looks_up_returned_groups_witness :
  exists groups : list group_row,
    process_entities four_record_batch default_max_rows = Ok groups /\
    filter is_geocode
      (trace (snd (main_frames east_or_west same_crs sample_geocode
                     {| shapefile_path := "states.shp" |}
                     four_record_batch default_max_rows None sample_world)))
    = filter is_geocode (trace sample_world)
      ++ map (fun g => Geocode (address_of g) 10) (looked_up groups).
Proof.
  apply (@main_looks_up_returned_groups Z string east_or_west same_crs nat
           sample_geocode {| shapefile_path := "states.shp" |}
           four_record_batch default_max_rows None sample_world).
  - discriminate.
  - exact well_labelled_four_record_batch.
  - exact sample_geocode_contract.
Defined.

Lemma main_lookup_budget_witness :
  (Z.of_nat (List.length (filter is_geocode
      (trace (snd (main_frames east_or_west same_crs sample_geocode
                     {| shapefile_path := "states.shp" |}
                     four_record_batch (Some 2%Z) None sample_world)))))
   <= Z.of_nat (List.length (filter is_geocode (trace sample_world))) + 2)%Z.
Proof.
  apply (@main_lookup_budget Z string east_or_west same_crs nat
           sample_geocode {| shapefile_path := "states.shp" |}
           four_record_batch 2%Z None sample_world).
  - discriminate.
  - exact well_labelled_four_record_batch.
  - exact sample_geocode_contract.
  - lia.
Defined.

Lemma main_returns_empty_without_locations_witness :
  fst (main_frames east_or_west same_crs offline_geocode
         {| shapefile_path := "states.shp" |}
         four_record_batch default_max_rows None sample_world)
  = Ok [].
Proof.
  apply (@main_returns_empty_without_locations Z string east_or_west
           same_crs nat offline_geocode {| shapefile_path := "states.shp" |}
           four_record_batch default_max_rows None
           [group_of "Miami" 1; group_of "Ocala" 1; group_of "Tampa" 1]
           {| crs := "EPSG:4326";
              features := [ {| name := "Florida"; boundary := "FL outline" |};
                            {| name := "Georgia"; boundary := "GA outline" |} ] |}
           sample_world).
  - reflexivity.
  - discriminate.
  - repeat constructor; right; reflexivity.
  - reflexivity.
  - reflexivity.
Defined.

Lemma main_fails_when_no_group_returned_witness :
  exists w' : world string nat,
    main_frames east_or_west same_crs sample_geocode
      {| shapefile_path := "states.shp" |} tampa_thrice default_max_rows
      None sample_world
    = (Raise ValueError, w') /\
    trace w' = [Geocode "nan, nan, nan" 10].
Proof.
  apply (@main_fails_when_no_group_returned Z string east_or_west same_crs
           nat sample_geocode {| shapefile_path := "states.shp" |}
           tampa_thrice default_max_rows None sample_world).
  reflexivity.
Defined.
